(** * PythoNinja: the function-banner checker of [src/extension.ts]

    A shallow embedding of the line-oriented core of the extension
    ([findFunctionStartLine], [findEndOfFunction], [hasValidFormat], the
    scanning loop of [updateDiagnostics] and the insertions of
    [provideCodeActions]) together with the properties stated about it.

    JavaScript strings are sequences of UTF-16 code units; a document is
    the list of its lines; [document.lineAt] raises outside
    [0, lineCount), which is modelled in the [option] monad. *)

From Stdlib Require Import String Ascii List ZArith NArith Bool Lia Sorted.
Import ListNotations.

(** ** JavaScript strings *)

Module JS.

(** A string is its sequence of UTF-16 code units. *)
Definition jsString := list N.

(** The code units of an ASCII literal of the source. *)
Definition str (s : string) : jsString :=
  map N_of_ascii (list_ascii_of_string s).
Arguments str s%_string.

(** [===] on strings. *)
Fixpoint strEq (a b : jsString) : bool :=
  match a, b with
  | [], [] => true
  | x :: a', y :: b' => N.eqb x y && strEq a' b'
  | _, _ => false
  end.

(** [String.prototype.startsWith]. *)
Fixpoint startsWith (s prefix : jsString) {struct prefix} : bool :=
  match prefix, s with
  | [], _ => true
  | p :: prefix', c :: s' => N.eqb c p && startsWith s' prefix'
  | _ :: _, [] => false
  end.

(** WhiteSpace and LineTerminator of ECMAScript: what [trim] strips and
    what the regular expression class [\s] matches. *)
Definition whiteSpaceCodes : list N :=
  [9; 10; 11; 12; 13; 32; 160; 5760;
   8192; 8193; 8194; 8195; 8196; 8197; 8198; 8199; 8200; 8201; 8202;
   8232; 8233; 8239; 8287; 12288; 65279]%N.

Definition isWhiteSpace (c : N) : bool := existsb (N.eqb c) whiteSpaceCodes.

(** The regular expression class [\w]: [A-Za-z0-9_]. *)
Definition isWordChar (c : N) : bool :=
  ((65 <=? c) && (c <=? 90) || (97 <=? c) && (c <=? 122)
   || (48 <=? c) && (c <=? 57) || (c =? 95))%N.

Fixpoint dropWhile (p : N -> bool) (s : jsString) : jsString :=
  match s with
  | [] => []
  | c :: s' => if p c then dropWhile p s' else s
  end.

Fixpoint takeWhile (p : N -> bool) (s : jsString) : jsString :=
  match s with
  | [] => []
  | c :: s' => if p c then c :: takeWhile p s' else []
  end.

Definition trimStart (s : jsString) : jsString := dropWhile isWhiteSpace s.
Definition trimEnd (s : jsString) : jsString :=
  rev (dropWhile isWhiteSpace (rev s)).

(** [String.prototype.trim]. *)
Definition trim (s : jsString) : jsString := trimEnd (trimStart s).

(** [text.match(/^def (\w+)/)]: [None] for [null], otherwise the first
    capture group, the longest run of word characters after ["def "]. *)
Definition matchDef (text : jsString) : option jsString :=
  if startsWith text (str "def ") then
    match takeWhile isWordChar (skipn 4 text) with
    | [] => None
    | name => Some name
    end
  else None.

End JS.
Import JS.

(** ** The editor's document *)

(** [vscode.TextDocument], as far as the source reads it. *)
Record TextDocument := mkDocument {
  languageId : string;
  lines : list jsString
}.

Definition lineCount (document : TextDocument) : Z :=
  Z.of_nat (List.length (lines document)).

(** [document.lineAt(i).text]; raises when [i] is not a line of the
    document. *)
Definition lineAt (document : TextDocument) (i : Z) : option jsString :=
  if (i <? 0)%Z || (lineCount document <=? i)%Z then None
  else nth_error (lines document) (Z.to_nat i).

(** [TextLine.firstNonWhitespaceCharacterIndex]: the length of the match
    of [/^\s*/], which is the length of the line when it is all
    whitespace. *)
Definition firstNonWhitespaceCharacterIndex (text : jsString) : Z :=
  Z.of_nat (List.length text) - Z.of_nat (List.length (trimStart text)).

(** Exceptions propagate: the [option] monad. *)
Definition bind {A B} (c : option A) (k : A -> option B) : option B :=
  match c with
  | Some a => k a
  | None => None
  end.

Notation "x <- c ;; k" := (bind c (fun x => k))
  (at level 61, c at next level, right associativity).

Open Scope Z_scope.

(** ** The format constants *)

Definition topComment : jsString :=
  str "# |-----------------------------------------------------------------------------|".

Definition functionComment (functionName : jsString) : jsString :=
  str "# " ++ functionName.

Definition bottomComment (functionName : jsString) : jsString :=
  str "# |-------------------------End of " ++ functionName
    ++ str " ------------------------------|".

Definition defPrefix (functionName : jsString) : jsString :=
  str "def " ++ functionName.

(** ** Block boundaries *)

(** The loop of [findFunctionStartLine]: [n] is the number of indices left
    before [lineCount], so the loop condition [i < lineCount] is [n <> 0]. *)
Fixpoint findFunctionStartLine_loop (document : TextDocument) (startLine : Z)
    (n : nat) (i : Z) : option Z :=
  match n with
  | O => Some startLine
  | S n' =>
      text <- lineAt document i ;;
      let line := trim text in
      if startsWith line (str "def ") then Some i
      else if negb (startsWith line (str "@")) && negb (strEq line [])
      then Some startLine
      else findFunctionStartLine_loop document startLine n' (i + 1)
  end.

Definition findFunctionStartLine (document : TextDocument) (startLine : Z)
    : option Z :=
  findFunctionStartLine_loop document startLine
    (Z.to_nat (lineCount document - startLine)) startLine.

(** The loop of [findEndOfFunction], with the same counter. *)
Fixpoint findEndOfFunction_loop (document : TextDocument)
    (startIndentation : Z) (n : nat) (i : Z) : option Z :=
  match n with
  | O => Some (lineCount document - 1)
  | S n' =>
      text <- lineAt document i ;;
      let lineText := trim text in
      let currentIndentation := firstNonWhitespaceCharacterIndex text in
      if strEq lineText [] then
        findEndOfFunction_loop document startIndentation n' (i + 1)
      else if (currentIndentation <? startIndentation)
              || startsWith lineText (str "def ")
      then Some (i - 1)
      else findEndOfFunction_loop document startIndentation n' (i + 1)
  end.

Definition findEndOfFunction (document : TextDocument) (startLine : Z)
    : option Z :=
  text <- lineAt document startLine ;;
  let startIndentation := firstNonWhitespaceCharacterIndex text in
  findEndOfFunction_loop document startIndentation
    (Z.to_nat (lineCount document - (startLine + 1))) (startLine + 1).

(** ** The format predicate *)

Definition hasValidFormat (document : TextDocument) (lineNumber : Z)
    (functionName : jsString) : option bool :=
  functionStartLine <- findFunctionStartLine document lineNumber ;;
  if functionStartLine <? 3 then Some false
  else
    top <- lineAt document (functionStartLine - 3) ;;
    let topBoundaryLine := trim top in
    cmt <- lineAt document (functionStartLine - 2) ;;
    let functionCommentLine := trim cmt in
    mid <- lineAt document (functionStartLine - 1) ;;
    let middleBoundaryLine := trim mid in
    def <- lineAt document functionStartLine ;;
    let functionDefinitionLine := trim def in
    lastFunctionLine <- findEndOfFunction document functionStartLine ;;
    bottomBoundaryLine <-
      (if lastFunctionLine + 1 <? lineCount document
       then bot <- lineAt document (lastFunctionLine + 1) ;; Some (trim bot)
       else Some []) ;;
    Some (strEq topBoundaryLine topComment
          && strEq functionCommentLine (functionComment functionName)
          && strEq middleBoundaryLine topComment
          && startsWith functionDefinitionLine (defPrefix functionName)).

(** ** The scan of [updateDiagnostics] *)

Inductive DiagnosticSeverity := Error | Warning | Information | Hint.

(** [vscode.Range]: start line and character, end line and character. *)
Record Range := mkRange {
  startLine : Z;
  startCharacter : Z;
  endLine : Z;
  endCharacter : Z
}.

Record Diagnostic := mkDiagnostic {
  range : Range;
  message : jsString;
  severity : DiagnosticSeverity;
  code : string
}.

(** The diagnostic built at lines 86-92 of the source. *)
Definition formatDiagnostic (functionStartLine : Z) (text functionName : jsString)
    : Diagnostic :=
  mkDiagnostic
    (mkRange functionStartLine 0 functionStartLine (Z.of_nat (List.length text)))
    (str "Function '" ++ functionName
       ++ str "' does not follow the required format")
    Warning
    "functionFormat".

(** One iteration of the [for] loop (lines 80-95): the diagnostics pushed
    for candidate index [i]. *)
Definition updateDiagnostics_body (document : TextDocument) (i : Z)
    : option (list Diagnostic) :=
  functionStartLine <- findFunctionStartLine document i ;;
  text <- lineAt document functionStartLine ;;
  match matchDef text with
  | Some functionName =>
      valid <- hasValidFormat document functionStartLine functionName ;;
      if negb valid then
        text' <- lineAt document functionStartLine ;;
        Some [formatDiagnostic functionStartLine text' functionName]
      else Some []
  | None => Some []
  end.

(** The [for] loop (lines 79-96), [diagnostics.push] appending. *)
Fixpoint updateDiagnostics_loop (document : TextDocument) (n : nat) (i : Z)
    (diagnostics : list Diagnostic) : option (list Diagnostic) :=
  match n with
  | O => Some diagnostics
  | S n' =>
      pushed <- updateDiagnostics_body document i ;;
      updateDiagnostics_loop document n' (i + 1) (diagnostics ++ pushed)
  end.

(** The diagnostics of one scan of a document. *)
Definition scan (document : TextDocument) : option (list Diagnostic) :=
  updateDiagnostics_loop document (Z.to_nat (lineCount document)) 0 [].

(** [updateDiagnostics]: [stored] is what the collection holds for the
    document's uri; a document that is not Python leaves it alone. *)
Definition updateDiagnostics (document : TextDocument) (stored : list Diagnostic)
    : option (list Diagnostic) :=
  if negb (String.eqb (languageId document) "python") then Some stored
  else scan document.

(** ** The quick fix of [provideCodeActions] *)

(** [WorkspaceEdit.insert(uri, new Position(line, character), newText)]. *)
Record TextEdit := mkInsert {
  editLine : Z;
  editCharacter : Z;
  newText : jsString
}.

Definition newline : jsString := [10%N].

(** The text inserted above the definition and the one inserted below
    the block (lines 53 and 63 of the source). *)
Definition openingText (name : jsString) : jsString :=
  topComment ++ newline ++ functionComment name ++ newline ++ topComment ++ newline.

Definition closingText (name : jsString) : jsString :=
  newline ++ bottomComment name ++ newline.

(** The body of [diagnostics.forEach] (lines 40-65). *)
Definition fixDiagnostic (document : TextDocument) (diagnostic : Diagnostic)
    : option (list TextEdit) :=
  let lineNumber := startLine (range diagnostic) in
  functionStartLine <- findFunctionStartLine document lineNumber ;;
  text <- lineAt document functionStartLine ;;
  match matchDef text with
  | Some functionName =>
      lastFunctionLine <- findEndOfFunction document lineNumber ;;
      Some [ mkInsert functionStartLine 0 (openingText functionName);
             mkInsert (lastFunctionLine + 1) 0 (closingText functionName) ]
  | None => Some []
  end.

Fixpoint forEachDiagnostic (document : TextDocument)
    (diagnostics : list Diagnostic) : option (list TextEdit) :=
  match diagnostics with
  | [] => Some []
  | d :: rest =>
      edits <- fixDiagnostic document d ;;
      more <- forEachDiagnostic document rest ;;
      Some (edits ++ more)
  end.

(** [provideCodeActions]: the inner [None] is [undefined], otherwise the
    edits of the single quick fix returned. *)
Definition provideCodeActions (document : TextDocument)
    (contextDiagnostics : list Diagnostic) : option (option (list TextEdit)) :=
  let diagnostics :=
    filter (fun d => String.eqb (code d) "functionFormat") contextDiagnostics in
  match diagnostics with
  | [] => Some None
  | _ => edits <- forEachDiagnostic document diagnostics ;; Some (Some edits)
  end.

(** ** Applying insertions (the editor's side)

    The source only builds the insertions; the editor applies them.  An
    insertion splits the line at its position and splices the inserted
    text, whose line feeds start new lines.  A position past the last line
    is moved to the end of the document, and a character past the end of a
    line to the end of that line. *)

Fixpoint splitLines_aux (cur : jsString) (s : jsString) : list jsString :=
  match s with
  | [] => [rev cur]
  | c :: s' =>
      if N.eqb c 10 then rev cur :: splitLines_aux [] s'
      else splitLines_aux (c :: cur) s'
  end.

(** The segments of a text between its line feeds (never empty). *)
Definition splitLines (s : jsString) : list jsString := splitLines_aux [] s.

(** [before ++ text ++ after] as lines. *)
Definition splice (before text after : jsString) : list jsString :=
  match splitLines text with
  | [] => [before ++ after]
  | [t] => [before ++ t ++ after]
  | t :: more => (before ++ t) :: removelast more ++ [last more [] ++ after]
  end.

(** Modelled from the spec: the editor's application of one insertion,
    which the source leaves to [vscode.WorkspaceEdit]; a pure insertion
    at the position, the text at and after it pushed down, nothing
    replaced. *)
Definition insertAt (ls : list jsString) (e : TextEdit) : list jsString :=
  let n := List.length ls in
  let l := Z.to_nat (editLine e) in
  let c := Z.to_nat (editCharacter e) in
  match n with
  | O => splice [] (newText e) []
  | S m =>
      if Nat.ltb l n then
        let text := nth l ls [] in
        firstn l ls ++ splice (firstn c text) (newText e) (skipn c text)
          ++ skipn (S l) ls
      else
        firstn m ls ++ splice (nth m ls []) (newText e) []
  end.

(** Modelled from the spec: the editor's application of a batch, all
    insertions referring to the same snapshot; with the edits in
    ascending position, applying the last one first leaves the positions
    of the earlier ones valid. *)
Definition applyEdits (document : TextDocument) (edits : list TextEdit)
    : TextDocument :=
  mkDocument (languageId document)
    (fold_right (fun e ls => insertAt ls e) (lines document) edits).

(** ** Sample documents *)

Definition py (ls : list string) : TextDocument :=
  mkDocument "python" (map str ls).

Definition doc_foo : TextDocument :=
  py ["def foo():"; "    return 1"]%string.

Definition doc_banner : TextDocument :=
  py ["# |-----------------------------------------------------------------------------|";
      "# foo";
      "# |-----------------------------------------------------------------------------|";
      "def foo():";
      "    return 1"]%string.

Definition doc_decorated : TextDocument :=
  py ["@a"; "@b"; "def foo():"]%string.

Definition doc_class : TextDocument :=
  py ["class A:"; "    def foo(self):"; "        return 1"; ""; "x = 1"]%string.

Definition doc_two : TextDocument :=
  py ["def a():"; "    pass";
      "# |-----------------------------------------------------------------------------|";
      "# b";
      "# |-----------------------------------------------------------------------------|";
      "def b():"; "    pass"]%string.

Definition doc_trailing : TextDocument :=
  py ["def foo():"; "    return 1"; "x = 1"]%string.

Definition doc_blank_above : TextDocument :=
  py ["import os"; "x = 1"; ""; "def foo():"; "    return x"]%string.

Definition doc_three : TextDocument :=
  py ["# |-----------------------------------------------------------------------------|";
      "# a";
      "# |-----------------------------------------------------------------------------|";
      "def a():"; "    pass";
      "def b():"; "    pass";
      "# |-----------------------------------------------------------------------------|";
      "# c";
      "# |-----------------------------------------------------------------------------|";
      "def c():"; "    pass"]%string.

Definition doc_method : TextDocument :=
  py ["class A:"; "    def foo(self):"; "        return 1"]%string.

Definition doc_indented_banner : TextDocument :=
  py ["   # |-----------------------------------------------------------------------------|";
      "# foo";
      "# |-----------------------------------------------------------------------------|";
      "def foo():";
      "    return 1"]%string.

(** ** The vocabulary of the statements *)

(** The trimmed text of line [k] begins with ["def "]. *)
Definition defAt (document : TextDocument) (k : Z) : Prop :=
  exists text, lineAt document k = Some text /\
               startsWith (trim text) (str "def ") = true.

(** Line [j] is blank or a decorator line. *)
Definition skippedAt (document : TextDocument) (j : Z) : Prop :=
  exists text, lineAt document j = Some text /\
               (trim text = [] \/ startsWith (trim text) (str "@") = true).

(** Line [k] is not blank and is neither a decorator nor a definition. *)
Definition otherAt (document : TextDocument) (k : Z) : Prop :=
  exists text, lineAt document k = Some text /\
               trim text <> [] /\
               startsWith (trim text) (str "@") = false /\
               startsWith (trim text) (str "def ") = false.

(** The trimmed text of line [i] is [s]. *)
Definition trimmedLineIs (document : TextDocument) (i : Z) (s : jsString) : Prop :=
  exists text, lineAt document i = Some text /\ trim text = s.

(** Line [i] ends a block of indentation [startIndentation]: it is not
    blank and it is indented less or its trimmed text begins with
    ["def "]. *)
Definition endsBlockAt (document : TextDocument) (startIndentation : Z) (i : Z)
    : Prop :=
  exists text, lineAt document i = Some text /\
               trim text <> [] /\
               (firstNonWhitespaceCharacterIndex text < startIndentation \/
                startsWith (trim text) (str "def ") = true).

(** The indentation of line [s]. *)
Definition indentationAt (document : TextDocument) (s : Z) (indentation : Z)
    : Prop :=
  exists text, lineAt document s = Some text /\
               indentation = firstNonWhitespaceCharacterIndex text.

(** The banner is in place above line [s]. *)
Definition bannerAbove (document : TextDocument) (s : Z) (name : jsString)
    : Prop :=
  trimmedLineIs document (s - 3) topComment /\
  trimmedLineIs document (s - 2) (functionComment name) /\
  trimmedLineIs document (s - 1) topComment.

(** The trimmed text of line [s] begins with ["def " + name]. *)
Definition definesAt (document : TextDocument) (s : Z) (name : jsString)
    : Prop :=
  exists text, lineAt document s = Some text /\
               startsWith (trim text) (defPrefix name) = true.

(** The diagnostic is on line [s]. *)
Definition startsAt (s : Z) (d : Diagnostic) : bool := startLine (range d) =? s.

(** No line feed in the text. *)
Definition noNewline (s : jsString) : bool :=
  forallb (fun c => negb (N.eqb c 10)) s.

(** The order of two diagnostics by their start lines. *)
Definition startsBefore (a b : Diagnostic) : Prop :=
  startLine (range a) <= startLine (range b).

(** An insertion of the quick fix: at the first column of a line of the
    document or of the line after the last. *)
Definition fixPosition (document : TextDocument) (e : TextEdit) : Prop :=
  editCharacter e = 0 /\ 0 <= editLine e <= lineCount document.

(** The two lines of the closing text, between the lines above [l] and
    the lines from [l] on, or after the last line. *)
Definition closingLines (inside : bool) (name : jsString) : list jsString :=
  if inside then [[]; bottomComment name] else [bottomComment name; []].

(** Candidate index [i] resolves to line [s]. *)
Definition resolvesTo (document : TextDocument) (s i : Z) : bool :=
  match findFunctionStartLine document i with
  | Some r => r =? s
  | None => false
  end.

(** The candidate indices of [n] iterations of the loop from [i] on. *)
Fixpoint candidatesFrom (n : nat) (i : Z) : list Z :=
  match n with
  | O => []
  | S n' => i :: candidatesFrom n' (i + 1)
  end.

(** The candidate indices of a scan: the line indices of the document. *)
Definition candidates (document : TextDocument) : list Z :=
  candidatesFrom (Z.to_nat (lineCount document)) 0.

(** Line [i] of [d2] is line [i] of [d1] with whitespace put before and
    after it. *)
Definition paddedLine (d1 d2 : TextDocument) (i : Z) : Prop :=
  exists a text b,
    lineAt d1 i = Some text /\ lineAt d2 i = Some (a ++ text ++ b) /\
    forallb isWhiteSpace a = true /\ forallb isWhiteSpace b = true.

(** ** Strings: equality, prefixes and trimming *)

Lemma strEq_true (a b : jsString) : strEq a b = true <-> a = b.
Proof.
  revert b; induction a as [|x a IH]; intros [|y b]; simpl;
    try (split; [discriminate | congruence]); try tauto.
  rewrite andb_true_iff, N.eqb_eq, IH. split.
  - intros [-> ->]; reflexivity.
  - intros E; inversion E; auto.
Qed.

Lemma strEq_false (a b : jsString) : strEq a b = false <-> a <> b.
Proof.
  rewrite <- strEq_true. destruct (strEq a b); split; congruence.
Qed.

Lemma strEq_refl (a : jsString) : strEq a a = true.
Proof. apply strEq_true; reflexivity. Qed.

Lemma startsWith_true (s p : jsString) :
  startsWith s p = true <-> exists r, s = p ++ r.
Proof.
  revert s; induction p as [|x p IH]; intros s; simpl.
  - split; [exists s; reflexivity | reflexivity].
  - destruct s as [|c s].
    + split; [discriminate | intros [r E]; discriminate].
    + rewrite andb_true_iff, N.eqb_eq, IH. split.
      * intros [-> [r ->]]. exists r; reflexivity.
      * intros [r E]. inversion E; subst. split; [reflexivity | exists r; reflexivity].
Qed.

Lemma startsWith_app (p r : jsString) : startsWith (p ++ r) p = true.
Proof. apply startsWith_true. exists r; reflexivity. Qed.

Lemma startsWith_app_assoc (p q r : jsString) :
  startsWith (p ++ q ++ r) (p ++ q) = true.
Proof. rewrite app_assoc. apply startsWith_app. Qed.

Lemma takeWhile_dropWhile (p : N -> bool) (s : jsString) :
  s = takeWhile p s ++ dropWhile p s.
Proof.
  induction s as [|c s IH]; simpl; [reflexivity|].
  destruct (p c); simpl; [f_equal; exact IH | reflexivity].
Qed.

Lemma takeWhile_all (p : N -> bool) (s : jsString) :
  forallb p (takeWhile p s) = true.
Proof.
  induction s as [|c s IH]; simpl; [reflexivity|].
  destruct (p c) eqn:E; simpl; [rewrite E; exact IH | reflexivity].
Qed.

Lemma dropWhile_stop (p : N -> bool) (c : N) (s : jsString) :
  p c = false -> dropWhile p (c :: s) = c :: s.
Proof. intros E; simpl; rewrite E; reflexivity. Qed.

Lemma dropWhile_app_stop (p : N -> bool) (a : jsString) (c : N) (b : jsString) :
  p c = false -> dropWhile p (a ++ c :: b) = dropWhile p a ++ c :: b.
Proof.
  intros E; induction a as [|x a IH]; simpl.
  - rewrite E; reflexivity.
  - destruct (p x); [exact IH | reflexivity].
Qed.

Lemma trimEnd_app_stop (q : jsString) (c : N) (r : jsString) :
  isWhiteSpace c = false -> trimEnd ((q ++ [c]) ++ r) = (q ++ [c]) ++ trimEnd r.
Proof.
  intros E. unfold trimEnd.
  rewrite rev_app_distr, (rev_app_distr q [c]). simpl rev at 2. simpl app at 2.
  rewrite dropWhile_app_stop by exact E.
  rewrite rev_app_distr. simpl. rewrite rev_involutive.
  rewrite <- app_assoc. reflexivity.
Qed.

Lemma trimEnd_nil : trimEnd [] = [].
Proof. reflexivity. Qed.

(** A string that starts and ends with characters that are not
    whitespace is its own trim. *)
Lemma trim_fixed (c : N) (q : jsString) (d : N) :
  isWhiteSpace c = false -> isWhiteSpace d = false ->
  trim (c :: q ++ [d]) = c :: q ++ [d].
Proof.
  intros Ec Ed. unfold trim, trimStart. rewrite dropWhile_stop by exact Ec.
  change (c :: q ++ [d]) with ((c :: q) ++ [d]).
  rewrite <- (app_nil_r ((c :: q) ++ [d])) at 1.
  rewrite trimEnd_app_stop by exact Ed. rewrite trimEnd_nil, app_nil_r. reflexivity.
Qed.

Lemma isWhiteSpace_true (c : N) :
  isWhiteSpace c = true -> In c whiteSpaceCodes.
Proof.
  unfold isWhiteSpace. rewrite existsb_exists.
  intros [x [Hin E]]. apply N.eqb_eq in E. subst; exact Hin.
Qed.

Lemma wordChar_not_whiteSpace (c : N) :
  isWordChar c = true -> isWhiteSpace c = false.
Proof.
  intros W. destruct (isWhiteSpace c) eqn:E; [|reflexivity].
  apply isWhiteSpace_true in E. unfold isWordChar in W.
  unfold whiteSpaceCodes in E. simpl in E.
  repeat (destruct E as [E|E]; [subst c; discriminate W|]). contradiction.
Qed.

Lemma wordChar_not_newline (c : N) : isWordChar c = true -> c <> 10%N.
Proof. intros W ->. discriminate W. Qed.

Lemma nonempty_snoc (s : jsString) :
  s <> [] -> exists q c, s = q ++ [c].
Proof.
  intros H. destruct (exists_last H) as [q [c E]]. exists q, c; exact E.
Qed.

Lemma forallb_snoc (p : N -> bool) (q : jsString) (c : N) :
  forallb p (q ++ [c]) = true -> forallb p q = true /\ p c = true.
Proof.
  rewrite forallb_app. simpl. rewrite andb_true_r, andb_true_iff. tauto.
Qed.

(** ** The definition pattern *)

(** What a match of [/^def (\w+)/] says about the line. *)
Lemma matchDef_Some (text name : jsString) :
  matchDef text = Some name ->
  exists q c rest,
    name = q ++ [c] /\ text = str "def " ++ name ++ rest /\
    forallb isWordChar name = true /\ isWordChar c = true.
Proof.
  unfold matchDef. destruct (startsWith text (str "def ")) eqn:S; [|discriminate].
  apply startsWith_true in S. destruct S as [r ->].
  change (skipn 4 (str "def " ++ r)) with r.
  destruct (takeWhile isWordChar r) as [|x w] eqn:T; [discriminate|].
  intros E; inversion E; subst name; clear E.
  assert (A : forallb isWordChar (x :: w) = true)
    by (rewrite <- T; apply takeWhile_all).
  destruct (nonempty_snoc (x :: w)) as [q [c Eq]]; [discriminate|].
  exists q, c, (dropWhile isWordChar r). split; [exact Eq|].
  split; [| split; [exact A|]].
  - rewrite <- T. f_equal. apply takeWhile_dropWhile.
  - rewrite Eq in A. apply forallb_snoc in A. tauto.
Qed.

(** A line matched by the pattern keeps its match when trimmed. *)
Lemma matchDef_trim (text name : jsString) :
  matchDef text = Some name ->
  startsWith (trim text) (str "def ") = true /\
  startsWith (trim text) (defPrefix name) = true.
Proof.
  intros M. destruct (matchDef_Some _ _ M) as [q [c [rest [Eq [Et [_ Wc]]]]]].
  assert (T : trim text = (str "def " ++ name) ++ trimEnd rest).
  { subst text name. unfold trim, trimStart.
    change (str "def " ++ (q ++ [c]) ++ rest)
      with (100%N :: [101; 102; 32]%N ++ (q ++ [c]) ++ rest).
    rewrite dropWhile_stop by reflexivity.
    change (100%N :: [101; 102; 32]%N ++ (q ++ [c]) ++ rest)
      with (str "def " ++ (q ++ [c]) ++ rest).
    rewrite (app_assoc (str "def ")), (app_assoc (str "def ") q [c]).
    rewrite trimEnd_app_stop by (apply wordChar_not_whiteSpace; exact Wc).
    reflexivity. }
  rewrite T. split.
  - rewrite <- app_assoc. apply startsWith_app.
  - apply startsWith_app.
Qed.

Lemma trim_topComment : trim topComment = topComment.
Proof. reflexivity. Qed.

Lemma trim_functionComment (text name : jsString) :
  matchDef text = Some name ->
  trim (functionComment name) = functionComment name.
Proof.
  intros M. destruct (matchDef_Some _ _ M) as [q [c [rest [Eq [_ [_ Wc]]]]]].
  subst name. unfold functionComment.
  change (str "# " ++ q ++ [c]) with (35%N :: (32%N :: q) ++ [c]).
  apply trim_fixed; [reflexivity | apply wordChar_not_whiteSpace; exact Wc].
Qed.

(** ** Reading lines *)

Lemma lineAt_Some_range (document : TextDocument) (i : Z) (text : jsString) :
  lineAt document i = Some text -> 0 <= i < lineCount document.
Proof.
  unfold lineAt. destruct (i <? 0) eqn:A; [discriminate|].
  destruct (lineCount document <=? i) eqn:B; [discriminate|]. simpl. lia.
Qed.

Lemma lineAt_in_range (document : TextDocument) (i : Z) :
  0 <= i < lineCount document -> exists text, lineAt document i = Some text.
Proof.
  intros H. unfold lineAt.
  destruct (i <? 0) eqn:A; [lia|]. destruct (lineCount document <=? i) eqn:B; [lia|].
  simpl. destruct (nth_error (lines document) (Z.to_nat i)) eqn:E; [eauto|].
  apply nth_error_None in E. unfold lineCount in H. lia.
Qed.

Lemma lineAt_nth_error (document : TextDocument) (i : nat) (text : jsString) :
  nth_error (lines document) i = Some text ->
  lineAt document (Z.of_nat i) = Some text.
Proof.
  intros E. unfold lineAt, lineCount.
  assert (i < List.length (lines document))%nat
    by (apply nth_error_Some; congruence).
  destruct (Z.of_nat i <? 0) eqn:A; [lia|].
  destruct (Z.of_nat (List.length (lines document)) <=? Z.of_nat i) eqn:B; [lia|].
  simpl. rewrite Nat2Z.id. exact E.
Qed.

Lemma lineAt_Some_nth_error (document : TextDocument) (i : Z) (text : jsString) :
  lineAt document i = Some text ->
  nth_error (lines document) (Z.to_nat i) = Some text.
Proof.
  unfold lineAt. destruct ((i <? 0) || (lineCount document <=? i)); [discriminate|].
  trivial.
Qed.

(** Two documents with the same first [n] lines read the same below [n]. *)
Lemma lineAt_firstn (d1 d2 : TextDocument) (n : nat) (i : Z) (text : jsString) :
  firstn n (lines d1) = firstn n (lines d2) ->
  i < Z.of_nat n ->
  lineAt d1 i = Some text -> lineAt d2 i = Some text.
Proof.
  intros F Hi L. pose proof (lineAt_Some_range _ _ _ L) as R.
  apply lineAt_Some_nth_error in L.
  rewrite <- (Z2Nat.id i) by lia. apply lineAt_nth_error.
  assert (B : Nat.ltb (Z.to_nat i) n = true) by (apply Nat.ltb_lt; lia).
  pose proof (nth_error_firstn n (lines d1) (Z.to_nat i)) as E1.
  pose proof (nth_error_firstn n (lines d2) (Z.to_nat i)) as E2.
  rewrite B in E1, E2. rewrite <- E2, <- F, E1. exact L.
Qed.

(** ** Blank and decorator lines *)

Lemma skipped_not_def (line : jsString) :
  line = [] \/ startsWith line (str "@") = true ->
  startsWith line (str "def ") = false.
Proof.
  intros [-> | H]; [reflexivity|].
  destruct line as [|c line]; [discriminate|].
  simpl in H. apply andb_true_iff in H. destruct H as [H _].
  apply N.eqb_eq in H. subst c. reflexivity.
Qed.

(** ** [findFunctionStartLine] *)

Section FindStart.

Variable document : TextDocument.
Variable startLine : Z.

Lemma findFunctionStartLine_loop_step (n : nat) (i : Z) (text : jsString) :
  lineAt document i = Some text ->
  findFunctionStartLine_loop document startLine (S n) i =
    if startsWith (trim text) (str "def ") then Some i
    else if negb (startsWith (trim text) (str "@")) && negb (strEq (trim text) [])
    then Some startLine
    else findFunctionStartLine_loop document startLine n (i + 1).
Proof. intros L. cbn [findFunctionStartLine_loop bind]. rewrite L. reflexivity. Qed.

Lemma findFunctionStartLine_loop_skip (n : nat) (i : Z) :
  skippedAt document i ->
  findFunctionStartLine_loop document startLine (S n) i =
    findFunctionStartLine_loop document startLine n (i + 1).
Proof.
  intros [text [L K]]. rewrite (findFunctionStartLine_loop_step _ _ _ L).
  rewrite (skipped_not_def _ K).
  destruct K as [E | E].
  - rewrite E. reflexivity.
  - rewrite E. reflexivity.
Qed.

(** The loop stops at the first definition line when only blank and
    decorator lines come before it. *)
Lemma findFunctionStartLine_loop_def (n : nat) : forall i k,
  0 <= i -> i + Z.of_nat n = lineCount document -> i <= k ->
  defAt document k ->
  (forall j, i <= j < k -> skippedAt document j) ->
  findFunctionStartLine_loop document startLine n i = Some k.
Proof.
  induction n as [|n IH]; intros i k H0 Hn Hk D Sk.
  - destruct D as [text [L _]]. apply lineAt_Some_range in L. lia.
  - destruct (Z.eq_dec i k) as [-> | Ne].
    + destruct D as [text [L D]].
      rewrite (findFunctionStartLine_loop_step _ _ _ L), D. reflexivity.
    + rewrite findFunctionStartLine_loop_skip by (apply Sk; lia).
      apply IH; try lia; [exact D|]. intros j Hj. apply Sk. lia.
Qed.

Lemma findFunctionStartLine_loop_other (n : nat) : forall i k,
  0 <= i -> i + Z.of_nat n = lineCount document -> i <= k ->
  otherAt document k ->
  (forall j, i <= j < k -> skippedAt document j) ->
  findFunctionStartLine_loop document startLine n i = Some startLine.
Proof.
  induction n as [|n IH]; intros i k H0 Hn Hk D Sk.
  - reflexivity.
  - destruct (Z.eq_dec i k) as [-> | Ne].
    + destruct D as [text [L [Ne [A D]]]].
      rewrite (findFunctionStartLine_loop_step _ _ _ L), D, A.
      apply strEq_false in Ne. rewrite Ne. reflexivity.
    + rewrite findFunctionStartLine_loop_skip by (apply Sk; lia).
      apply IH with (k := k); try lia; [exact D|]. intros j Hj. apply Sk. lia.
Qed.

Lemma findFunctionStartLine_loop_end (n : nat) : forall i,
  0 <= i -> i + Z.of_nat n = lineCount document ->
  (forall j, i <= j < lineCount document -> skippedAt document j) ->
  findFunctionStartLine_loop document startLine n i = Some startLine.
Proof.
  induction n as [|n IH]; intros i H0 Hn Sk.
  - reflexivity.
  - rewrite findFunctionStartLine_loop_skip by (apply Sk; lia).
    apply IH; try lia. intros j Hj. apply Sk. lia.
Qed.

(** The loop never raises, and what it returns is the line it was
    asked about or a definition line at or after [i]. *)
Lemma findFunctionStartLine_loop_result (n : nat) : forall i,
  0 <= i -> i + Z.of_nat n = lineCount document ->
  exists r, findFunctionStartLine_loop document startLine n i = Some r /\
            (r = startLine \/ (i <= r < lineCount document /\ defAt document r)).
Proof.
  induction n as [|n IH]; intros i H0 Hn.
  - exists startLine. split; [reflexivity | left; reflexivity].
  - destruct (lineAt_in_range document i) as [text L]; [lia|].
    rewrite (findFunctionStartLine_loop_step _ _ _ L).
    destruct (startsWith (trim text) (str "def ")) eqn:D.
    + exists i. split; [reflexivity|]. right. split; [lia|]. exists text. auto.
    + destruct (negb (startsWith (trim text) (str "@")) && negb (strEq (trim text) [])).
      * exists startLine. split; [reflexivity | left; reflexivity].
      * destruct (IH (i + 1)) as [r [E R]]; try lia.
        exists r. split; [exact E|]. destruct R as [R | [R1 R2]]; [left; exact R|].
        right. split; [lia | exact R2].
Qed.

End FindStart.

Lemma findFunctionStartLine_counter (document : TextDocument) (i : Z) :
  0 <= i < lineCount document ->
  i + Z.of_nat (Z.to_nat (lineCount document - i)) = lineCount document.
Proof. lia. Qed.

(** [findFunctionStartLine] past the end of the document reads nothing. *)
Lemma findFunctionStartLine_past_end (document : TextDocument) (i : Z) :
  lineCount document <= i -> findFunctionStartLine document i = Some i.
Proof.
  intros H. unfold findFunctionStartLine.
  replace (Z.to_nat (lineCount document - i)) with O by lia. reflexivity.
Qed.

Lemma findFunctionStartLine_total (document : TextDocument) (i : Z) :
  0 <= i ->
  exists r, findFunctionStartLine document i = Some r /\
            i <= r /\ (r = i \/ (r < lineCount document /\ defAt document r)).
Proof.
  intros H0. destruct (Z_lt_le_dec i (lineCount document)) as [Lt | Ge].
  - destruct (findFunctionStartLine_loop_result document i
                (Z.to_nat (lineCount document - i)) i) as [r [E R]]; try lia.
    exists r. split; [exact E|]. destruct R as [-> | [R1 R2]].
    + split; [lia | left; reflexivity].
    + split; [lia | right; split; [lia | exact R2]].
  - exists i. split; [apply findFunctionStartLine_past_end; exact Ge|].
    split; [lia | left; reflexivity].
Qed.

(** On a definition line the start line is the line itself. *)
Lemma findFunctionStartLine_at_def (document : TextDocument) (s : Z) :
  defAt document s -> findFunctionStartLine document s = Some s.
Proof.
  intros D. pose proof D as [text [L _]]. apply lineAt_Some_range in L.
  unfold findFunctionStartLine.
  apply findFunctionStartLine_loop_def; try lia. exact D.
Qed.

(** The first definition line at or after [fromLine], reached over blank
    and decorator lines only, is the start line. *)
Lemma findFunctionStartLine_first_def (document : TextDocument) (fromLine k : Z) :
  0 <= fromLine -> fromLine <= k -> defAt document k ->
  (forall j, fromLine <= j < k -> skippedAt document j) ->
  findFunctionStartLine document fromLine = Some k.
Proof.
  intros H0 Hk D Sk. pose proof D as [text [L _]]. apply lineAt_Some_range in L.
  unfold findFunctionStartLine.
  apply findFunctionStartLine_loop_def; try lia; assumption.
Qed.

(** C5. [findFunctionStartLine] scans forward from [fromLine]: it returns
    the index of the first line whose trimmed text begins with ["def "]
    when only blank lines and decorator lines come before it, and
    [fromLine] itself when a non-empty line that is neither a decorator
    nor a definition comes first or when the document ends first. *)
Theorem findFunctionStartLine_spec (document : TextDocument) (fromLine : Z) :
  0 <= fromLine ->
  (forall k, fromLine <= k -> defAt document k ->
     (forall j, fromLine <= j < k -> skippedAt document j) ->
     findFunctionStartLine document fromLine = Some k) /\
  (forall k, fromLine <= k -> otherAt document k ->
     (forall j, fromLine <= j < k -> skippedAt document j) ->
     findFunctionStartLine document fromLine = Some fromLine) /\
  ((forall j, fromLine <= j < lineCount document -> skippedAt document j) ->
     findFunctionStartLine document fromLine = Some fromLine).
Proof.
  intros H0. destruct (Z_lt_le_dec fromLine (lineCount document)) as [Lt | Ge].
  - unfold findFunctionStartLine. repeat split.
    + intros k Hk D Sk. apply findFunctionStartLine_first_def; assumption.
    + intros k Hk D Sk.
      apply findFunctionStartLine_loop_other with (k := k); try lia; assumption.
    + intros Sk. apply findFunctionStartLine_loop_end; try lia; assumption.
  - repeat split.
    + intros k Hk [text [L _]] _. apply lineAt_Some_range in L. lia.
    + intros. apply findFunctionStartLine_past_end; exact Ge.
    + intros. apply findFunctionStartLine_past_end; exact Ge.
Qed.

Lemma findFunctionStartLine_spec_witness :
  0 <= 0 /\ defAt doc_decorated 2 /\
  findFunctionStartLine doc_decorated 0 = Some 2.
Proof.
  assert (D : defAt doc_decorated 2).
  { exists (str "def foo():"). split; reflexivity. }
  split; [lia | split; [exact D|]].
  apply (proj1 (findFunctionStartLine_spec doc_decorated 0 ltac:(lia)) 2);
    [lia | exact D |].
  intros j Hj. assert (E : j = 0 \/ j = 1) by lia.
  destruct E as [-> | ->].
  - exists (str "@a"). split; [reflexivity | right; reflexivity].
  - exists (str "@b"). split; [reflexivity | right; reflexivity].
Defined.

(** ** [findEndOfFunction] *)

Section FindEnd.

Variable document : TextDocument.
Variable startIndentation : Z.

Lemma findEndOfFunction_loop_step (n : nat) (i : Z) (text : jsString) :
  lineAt document i = Some text ->
  findEndOfFunction_loop document startIndentation (S n) i =
    if strEq (trim text) [] then
      findEndOfFunction_loop document startIndentation n (i + 1)
    else if (firstNonWhitespaceCharacterIndex text <? startIndentation)
            || startsWith (trim text) (str "def ")
    then Some (i - 1)
    else findEndOfFunction_loop document startIndentation n (i + 1).
Proof. intros L. cbn [findEndOfFunction_loop bind]. rewrite L. reflexivity. Qed.

Lemma findEndOfFunction_loop_continue (n : nat) (i : Z) :
  0 <= i < lineCount document ->
  ~ endsBlockAt document startIndentation i ->
  findEndOfFunction_loop document startIndentation (S n) i =
    findEndOfFunction_loop document startIndentation n (i + 1).
Proof.
  intros R NE. destruct (lineAt_in_range document i R) as [text L].
  rewrite (findEndOfFunction_loop_step _ _ _ L).
  destruct (strEq (trim text) []) eqn:B; [reflexivity|].
  destruct ((firstNonWhitespaceCharacterIndex text <? startIndentation)
            || startsWith (trim text) (str "def ")) eqn:C; [|reflexivity].
  exfalso. apply NE. exists text. split; [exact L|].
  split; [apply strEq_false; exact B|].
  apply orb_true_iff in C. destruct C as [C | C]; [left | right; exact C].
  apply Z.ltb_lt; exact C.
Qed.

Lemma findEndOfFunction_loop_stop (n : nat) : forall i k,
  0 <= i -> i + Z.of_nat n = lineCount document -> i <= k ->
  endsBlockAt document startIndentation k ->
  (forall j, i <= j < k -> ~ endsBlockAt document startIndentation j) ->
  findEndOfFunction_loop document startIndentation n i = Some (k - 1).
Proof.
  induction n as [|n IH]; intros i k H0 Hn Hk E NE.
  - destruct E as [text [L _]]. apply lineAt_Some_range in L. lia.
  - destruct (Z.eq_dec i k) as [-> | Ne].
    + destruct E as [text [L [B C]]].
      rewrite (findEndOfFunction_loop_step _ _ _ L).
      apply strEq_false in B. rewrite B.
      replace ((firstNonWhitespaceCharacterIndex text <? startIndentation)
               || startsWith (trim text) (str "def ")) with true; [reflexivity|].
      symmetry. apply orb_true_iff.
      destruct C as [C | C]; [left; apply Z.ltb_lt; exact C | right; exact C].
    + pose proof E as [text [L _]]. apply lineAt_Some_range in L.
      rewrite findEndOfFunction_loop_continue by (try apply NE; lia).
      apply IH; try lia; [exact E|]. intros j Hj. apply NE. lia.
Qed.

Lemma findEndOfFunction_loop_end (n : nat) : forall i,
  0 <= i -> i + Z.of_nat n = lineCount document ->
  (forall j, i <= j < lineCount document ->
             ~ endsBlockAt document startIndentation j) ->
  findEndOfFunction_loop document startIndentation n i
    = Some (lineCount document - 1).
Proof.
  induction n as [|n IH]; intros i H0 Hn NE.
  - reflexivity.
  - rewrite findEndOfFunction_loop_continue by (try apply NE; lia).
    apply IH; try lia. intros j Hj. apply NE. lia.
Qed.

(** The loop never raises and ends the block between the line before
    [i] and the last line. *)
Lemma findEndOfFunction_loop_result (n : nat) : forall i,
  0 <= i -> i + Z.of_nat n = lineCount document ->
  exists e, findEndOfFunction_loop document startIndentation n i = Some e /\
            i - 1 <= e < lineCount document.
Proof.
  induction n as [|n IH]; intros i H0 Hn.
  - exists (lineCount document - 1). split; [reflexivity | lia].
  - destruct (lineAt_in_range document i) as [text L]; [lia|].
    rewrite (findEndOfFunction_loop_step _ _ _ L).
    destruct (IH (i + 1)) as [e [E R]]; try lia.
    destruct (strEq (trim text) []).
    + exists e. split; [exact E | lia].
    + destruct ((firstNonWhitespaceCharacterIndex text <? startIndentation)
                || startsWith (trim text) (str "def ")).
      * exists (i - 1). split; [reflexivity | lia].
      * exists e. split; [exact E | lia].
Qed.

End FindEnd.

Lemma findEndOfFunction_total (document : TextDocument) (s : Z) :
  0 <= s < lineCount document ->
  exists e, findEndOfFunction document s = Some e /\ s <= e < lineCount document.
Proof.
  intros R. destruct (lineAt_in_range document s R) as [text L].
  unfold findEndOfFunction. rewrite L. cbn [bind].
  destruct (findEndOfFunction_loop_result document
              (firstNonWhitespaceCharacterIndex text)
              (Z.to_nat (lineCount document - (s + 1))) (s + 1)) as [e [E Re]];
    try lia.
  exists e. split; [exact E | lia].
Qed.

(** C6. [findEndOfFunction] returns [i - 1] for the first line [i] after
    [startLine] that is not blank and is indented strictly less than
    [startLine] or begins, once trimmed, with ["def "]; a blank line never
    ends the block; without such a line the result is the last line of
    the document. *)
Theorem findEndOfFunction_spec (document : TextDocument) (startLine : Z)
    (startIndentation : Z) :
  indentationAt document startLine startIndentation ->
  (forall i, startLine < i ->
     endsBlockAt document startIndentation i ->
     (forall j, startLine < j < i -> ~ endsBlockAt document startIndentation j) ->
     findEndOfFunction document startLine = Some (i - 1)) /\
  (forall j, trimmedLineIs document j [] ->
     ~ endsBlockAt document startIndentation j) /\
  ((forall j, startLine < j < lineCount document ->
              ~ endsBlockAt document startIndentation j) ->
   findEndOfFunction document startLine = Some (lineCount document - 1)).
Proof.
  intros [text [L ->]]. pose proof (lineAt_Some_range _ _ _ L) as R.
  unfold findEndOfFunction. rewrite L. cbn [bind]. repeat split.
  - intros i Hi E NE. apply findEndOfFunction_loop_stop; try lia; [exact E|].
    intros j Hj. apply NE. lia.
  - intros j [t [Lj B]] [t' [Lj' [B' _]]]. congruence.
  - intros NE. apply findEndOfFunction_loop_end; try lia.
    intros j Hj. apply NE. lia.
Qed.

Lemma findEndOfFunction_spec_witness :
  indentationAt doc_class 1 4 /\ endsBlockAt doc_class 4 4 /\
  findEndOfFunction doc_class 1 = Some (4 - 1).
Proof.
  assert (I : indentationAt doc_class 1 4).
  { exists (str "    def foo(self):"). split; reflexivity. }
  assert (E : endsBlockAt doc_class 4 4).
  { exists (str "x = 1"). split; [reflexivity|]. split; [discriminate|].
    left. reflexivity. }
  split; [exact I | split; [exact E|]].
  apply (proj1 (findEndOfFunction_spec doc_class 1 4 I) 4); [lia | exact E |].
  intros j Hj [text [L [B C]]]. assert (K : j = 2 \/ j = 3) by lia.
  destruct K as [-> | ->]; vm_compute in L; inversion L; subst text; clear L.
  - destruct C as [C | C]; [vm_compute in C | vm_compute in C]; discriminate.
  - apply B. reflexivity.
Defined.

(** ** [hasValidFormat] *)

(** The guarded read of the closing banner line never raises. *)
Lemma bottomBoundaryLine_total (document : TextDocument) (e : Z) :
  0 <= e ->
  exists b,
    (if e + 1 <? lineCount document
     then bot <- lineAt document (e + 1) ;; Some (trim bot)
     else Some []) = Some b.
Proof.
  intros He. destruct (e + 1 <? lineCount document) eqn:C; [|eauto].
  apply Z.ltb_lt in C. destruct (lineAt_in_range document (e + 1)) as [t L]; [lia|].
  rewrite L. cbn [bind]. eauto.
Qed.

Lemma hasValidFormat_below_3 (document : TextDocument) (s : Z) (name : jsString) :
  defAt document s -> s < 3 -> hasValidFormat document s name = Some false.
Proof.
  intros D H. unfold hasValidFormat.
  rewrite (findFunctionStartLine_at_def _ _ D). cbn [bind].
  destruct (s <? 3) eqn:C; [reflexivity | apply Z.ltb_ge in C; lia].
Qed.

(** With room above a definition line the answer is the conjunction of
    the four comparisons; the closing banner line is read and dropped. *)
Lemma hasValidFormat_at_def (document : TextDocument) (s : Z)
    (name t1 t2 t3 t4 : jsString) :
  defAt document s -> 3 <= s ->
  lineAt document (s - 3) = Some t1 ->
  lineAt document (s - 2) = Some t2 ->
  lineAt document (s - 1) = Some t3 ->
  lineAt document s = Some t4 ->
  hasValidFormat document s name =
    Some (strEq (trim t1) topComment
          && strEq (trim t2) (functionComment name)
          && strEq (trim t3) topComment
          && startsWith (trim t4) (defPrefix name)).
Proof.
  intros D H3 L1 L2 L3 L4. unfold hasValidFormat.
  rewrite (findFunctionStartLine_at_def _ _ D). cbn [bind].
  destruct (s <? 3) eqn:C; [apply Z.ltb_lt in C; lia|].
  rewrite L1, L2, L3, L4. cbn [bind].
  destruct (findEndOfFunction_total document s) as [e [E Re]];
    [apply (lineAt_Some_range _ _ _ L4)|].
  rewrite E. cbn [bind].
  destruct (bottomBoundaryLine_total document e) as [b B]; [lia|].
  rewrite B. reflexivity.
Qed.

Lemma hasValidFormat_decision (document : TextDocument) (s : Z) (name : jsString) :
  defAt document s ->
  exists b, hasValidFormat document s name = Some b /\
            (b = true <->
             3 <= s /\ bannerAbove document s name /\ definesAt document s name).
Proof.
  intros D. destruct (Z_lt_le_dec s 3) as [Lt | Ge].
  - exists false. split; [apply hasValidFormat_below_3; assumption|].
    split; [discriminate | intros [H _]; lia].
  - pose proof D as [t4 [L4 _]]. pose proof (lineAt_Some_range _ _ _ L4) as R.
    destruct (lineAt_in_range document (s - 3)) as [t1 L1]; [lia|].
    destruct (lineAt_in_range document (s - 2)) as [t2 L2]; [lia|].
    destruct (lineAt_in_range document (s - 1)) as [t3 L3]; [lia|].
    eexists. split; [apply (hasValidFormat_at_def _ _ name _ _ _ _ D Ge L1 L2 L3 L4)|].
    rewrite !andb_true_iff, !strEq_true. split.
    + intros [[[A B] C] E]. split; [exact Ge|]. split.
      * repeat split; eexists; eauto.
      * eexists; eauto.
    + intros [_ [[[a [La A]] [[b [Lb B]] [c [Lc C]]]] [d [Ld E]]]].
      assert (a = t1) by congruence. assert (b = t2) by congruence.
      assert (c = t3) by congruence. assert (d = t4) by congruence.
      subst. tauto.
Qed.

(** C1. On a line [startLine] holding a definition, [hasValidFormat]
    returns [true] exactly when [startLine >= 3], the trimmed lines
    [startLine - 3] and [startLine - 1] are the top rule, the trimmed
    line [startLine - 2] is ["# " + name] and the trimmed line
    [startLine] begins with ["def " + name]; it returns [false] whenever
    [startLine < 3]. *)
Theorem hasValidFormat_iff (document : TextDocument) (startLine : Z)
    (name : jsString) :
  defAt document startLine ->
  exists b, hasValidFormat document startLine name = Some b /\
    (b = true <->
     3 <= startLine /\
     trimmedLineIs document (startLine - 3) topComment /\
     trimmedLineIs document (startLine - 2) (functionComment name) /\
     trimmedLineIs document (startLine - 1) topComment /\
     definesAt document startLine name) /\
    (startLine < 3 -> b = false).
Proof.
  intros D. destruct (hasValidFormat_decision document startLine name D) as [b [E I]].
  exists b. split; [exact E|]. split.
  - rewrite I. unfold bannerAbove. tauto.
  - intros Lt. destruct b; [|reflexivity].
    destruct (proj1 I eq_refl) as [Ge _]. lia.
Qed.

Lemma hasValidFormat_iff_witness :
  defAt doc_banner 3 /\
  exists b, hasValidFormat doc_banner 3 (str "foo") = Some b /\
    (b = true <->
     3 <= 3 /\
     trimmedLineIs doc_banner (3 - 3) topComment /\
     trimmedLineIs doc_banner (3 - 2) (functionComment (str "foo")) /\
     trimmedLineIs doc_banner (3 - 1) topComment /\
     definesAt doc_banner 3 (str "foo")) /\
    (3 < 3 -> b = false).
Proof.
  assert (D : defAt doc_banner 3).
  { exists (str "def foo():"). split; reflexivity. }
  split; [exact D|]. apply (hasValidFormat_iff doc_banner 3 (str "foo") D).
Defined.

(** ** Whitespace around a line *)

Lemma dropWhile_app_all (p : N -> bool) (a r : jsString) :
  forallb p a = true -> dropWhile p (a ++ r) = dropWhile p r.
Proof.
  induction a as [|x a IH]; simpl; [reflexivity|].
  intros H. apply andb_true_iff in H. destruct H as [Hx Ha].
  rewrite Hx. exact (IH Ha).
Qed.

Lemma dropWhile_app_some (p : N -> bool) (s b : jsString) :
  forallb p s = false -> dropWhile p (s ++ b) = dropWhile p s ++ b.
Proof.
  induction s as [|x s IH]; simpl; [discriminate|].
  destruct (p x); simpl; [exact IH | reflexivity].
Qed.

Lemma dropWhile_all (p : N -> bool) (s : jsString) :
  forallb p s = true -> dropWhile p s = [].
Proof.
  intros H. rewrite <- (app_nil_r s). rewrite dropWhile_app_all by exact H.
  reflexivity.
Qed.

Lemma forallb_rev (p : N -> bool) (s : jsString) :
  forallb p (rev s) = forallb p s.
Proof.
  induction s as [|x s IH]; simpl; [reflexivity|].
  rewrite forallb_app, IH. simpl. rewrite andb_true_r. apply andb_comm.
Qed.

Lemma trimEnd_app_all (r b : jsString) :
  forallb isWhiteSpace b = true -> trimEnd (r ++ b) = trimEnd r.
Proof.
  intros H. unfold trimEnd. rewrite rev_app_distr.
  rewrite dropWhile_app_all by (rewrite forallb_rev; exact H). reflexivity.
Qed.

(** Whitespace before and after a text does not show in its trim. *)
Lemma trim_padding (a text b : jsString) :
  forallb isWhiteSpace a = true -> forallb isWhiteSpace b = true ->
  trim (a ++ text ++ b) = trim text.
Proof.
  intros Ha Hb. unfold trim, trimStart.
  rewrite dropWhile_app_all by exact Ha.
  destruct (forallb isWhiteSpace text) eqn:T.
  - rewrite dropWhile_app_all by exact T.
    rewrite (dropWhile_all _ _ T), (dropWhile_all _ _ Hb). reflexivity.
  - rewrite dropWhile_app_some by exact T. apply trimEnd_app_all; exact Hb.
Qed.

(** C4, as the code has it. The three banner lines are compared with the
    literal constants after [trim]: on a definition line, [hasValidFormat]
    returns [true] exactly when there is room for the banner, the trimmed
    banner lines are exactly the literals and the trimmed definition line
    begins with ["def " + name]; any other deviation of a trimmed banner
    line gives [false]; and whitespace before or after the banner lines
    is ignored: putting it there leaves the result of [hasValidFormat] as
    it was. *)
Theorem banner_exact_after_trim (document : TextDocument) (startLine : Z)
    (name : jsString) :
  defAt document startLine ->
  (hasValidFormat document startLine name = Some true <->
   3 <= startLine /\ bannerAbove document startLine name /\
   definesAt document startLine name) /\
  (~ bannerAbove document startLine name ->
   hasValidFormat document startLine name = Some false) /\
  (forall i a text b,
     lineAt document i = Some (a ++ text ++ b) ->
     forallb isWhiteSpace a = true -> forallb isWhiteSpace b = true ->
     trimmedLineIs document i (trim text)) /\
  (forall padded,
     lineAt padded startLine = lineAt document startLine ->
     paddedLine document padded (startLine - 3) ->
     paddedLine document padded (startLine - 2) ->
     paddedLine document padded (startLine - 1) ->
     hasValidFormat padded startLine name
     = hasValidFormat document startLine name).
Proof.
  intros D. destruct (hasValidFormat_decision document startLine name D) as [b [E I]].
  split; [|split; [|split]].
  - rewrite E. split.
    + intros V. inversion V; subst b. apply I; reflexivity.
    + intros C. f_equal. apply I; exact C.
  - rewrite E. intros NB. destruct b; [|reflexivity].
    exfalso. apply NB. apply I. reflexivity.
  - intros i a text c L Ha Hc. exists (a ++ text ++ c). split; [exact L|].
    apply trim_padding; assumption.
  - intros padded L4 [a1 [t1 [b1 [L1 [P1 [A1 B1]]]]]] [a2 [t2 [b2 [L2 [P2 [A2 B2]]]]]]
      [a3 [t3 [b3 [L3 [P3 [A3 B3]]]]]].
    pose proof D as [t4 [Ld Sd]]. pose proof (lineAt_Some_range _ _ _ L1) as R.
    assert (D' : defAt padded startLine)
      by (exists t4; split; [rewrite L4; exact Ld | exact Sd]).
    rewrite (hasValidFormat_at_def document startLine name t1 t2 t3 t4)
      by (try assumption; lia).
    rewrite (hasValidFormat_at_def padded startLine name
               (a1 ++ t1 ++ b1) (a2 ++ t2 ++ b2) (a3 ++ t3 ++ b3) t4)
      by (try assumption; try lia; rewrite L4; exact Ld).
    rewrite !trim_padding by assumption. reflexivity.
Qed.

Lemma banner_exact_after_trim_witness :
  defAt doc_banner 3 /\
  hasValidFormat doc_indented_banner 3 (str "foo")
  = hasValidFormat doc_banner 3 (str "foo") /\
  hasValidFormat doc_indented_banner 3 (str "foo") = Some true.
Proof.
  assert (D : defAt doc_banner 3).
  { exists (str "def foo():"). split; reflexivity. }
  split; [exact D|]. split; [|reflexivity].
  apply (proj2 (proj2 (proj2 (banner_exact_after_trim doc_banner 3 (str "foo") D)))).
  - reflexivity.
  - exists (str "   "), topComment, []. repeat split; reflexivity.
  - exists [], (str "# foo"), []. repeat split; reflexivity.
  - exists [], topComment, []. repeat split; reflexivity.
Defined.

(** C4 as stated fails: the first banner line of [doc_indented_banner]
    differs from the literal by three leading spaces and the block is
    still accepted. *)
Lemma banner_with_leading_space_accepted :
  exists text,
    lineAt doc_indented_banner (3 - 3) = Some text /\
    text <> topComment /\
    defAt doc_indented_banner 3 /\
    hasValidFormat doc_indented_banner 3 (str "foo") = Some true.
Proof.
  exists (str "   " ++ topComment). split; [reflexivity|].
  split; [discriminate|]. split; [|reflexivity].
  exists (str "def foo():"). split; reflexivity.
Qed.

(** C8. The closing banner has no say: two documents that differ only in
    the content or the presence of the line after the end of a function
    give [hasValidFormat] the same result at the function's start line. *)
Theorem closing_banner_ignored (d1 d2 : TextDocument) (s e : Z)
    (name : jsString) (pre x y post : list jsString) :
  lines d1 = pre ++ x ++ post ->
  lines d2 = pre ++ y ++ post ->
  (List.length x <= 1)%nat -> (List.length y <= 1)%nat ->
  defAt d1 s ->
  findEndOfFunction d1 s = Some e ->
  Z.of_nat (List.length pre) = e + 1 ->
  hasValidFormat d1 s name = hasValidFormat d2 s name.
Proof.
  intros E1 E2 _ _ D1 Fe Hp.
  pose proof D1 as [t4 [L4 S4]]. pose proof (lineAt_Some_range _ _ _ L4) as R.
  destruct (findEndOfFunction_total d1 s R) as [e' [Fe' Re]].
  assert (e' = e) by congruence. subst e'.
  assert (F : firstn (List.length pre) (lines d1)
              = firstn (List.length pre) (lines d2)).
  { rewrite E1, E2, !firstn_app, !Nat.sub_diag, !firstn_all. reflexivity. }
  assert (T : forall i t, i <= s -> lineAt d1 i = Some t -> lineAt d2 i = Some t).
  { intros i t Hi L. apply (lineAt_firstn d1 d2 _ i t F); [lia | exact L]. }
  assert (D2 : defAt d2 s) by (exists t4; split; [apply T; [lia | exact L4] | exact S4]).
  destruct (Z_lt_le_dec s 3) as [Lt | Ge].
  - rewrite !hasValidFormat_below_3 by assumption. reflexivity.
  - destruct (lineAt_in_range d1 (s - 3)) as [t1 L1]; [lia|].
    destruct (lineAt_in_range d1 (s - 2)) as [t2 L2]; [lia|].
    destruct (lineAt_in_range d1 (s - 1)) as [t3 L3]; [lia|].
    rewrite (hasValidFormat_at_def d1 s name t1 t2 t3 t4) by assumption.
    rewrite (hasValidFormat_at_def d2 s name t1 t2 t3 t4);
      try assumption; try (apply T; [lia | assumption]).
    reflexivity.
Qed.

Lemma closing_banner_ignored_witness :
  hasValidFormat doc_class 1 (str "foo")
  = hasValidFormat
      (py ["class A:"; "    def foo(self):"; "        return 1"; "";
           "# |-------------------------End of foo ------------------------------|"]%string)
      1 (str "foo").
Proof.
  apply (closing_banner_ignored doc_class _ 1 3 (str "foo")
           (map str ["class A:"; "    def foo(self):"; "        return 1"; ""]%string)
           [str "x = 1"]
           [str "# |-------------------------End of foo ------------------------------|"]
           []).
  - reflexivity.
  - reflexivity.
  - simpl; lia.
  - simpl; lia.
  - exists (str "    def foo(self):"). split; reflexivity.
  - reflexivity.
  - reflexivity.
Defined.

(** ** Totality *)

Lemma hasValidFormat_total (document : TextDocument) (lineNumber : Z)
    (name : jsString) :
  0 <= lineNumber < lineCount document ->
  exists b, hasValidFormat document lineNumber name = Some b.
Proof.
  intros R. unfold hasValidFormat.
  destruct (findFunctionStartLine_total document lineNumber) as [s [E [Hs K]]];
    [lia|].
  assert (Rs : 0 <= s < lineCount document) by (destruct K as [-> | [K _]]; lia).
  rewrite E. cbn [bind]. destruct (s <? 3) eqn:C; [eauto|]. apply Z.ltb_ge in C.
  destruct (lineAt_in_range document (s - 3)) as [t1 L1]; [lia|].
  destruct (lineAt_in_range document (s - 2)) as [t2 L2]; [lia|].
  destruct (lineAt_in_range document (s - 1)) as [t3 L3]; [lia|].
  destruct (lineAt_in_range document s) as [t4 L4]; [lia|].
  rewrite L1, L2, L3, L4. cbn [bind].
  destruct (findEndOfFunction_total document s Rs) as [e [Fe Re]].
  rewrite Fe. cbn [bind].
  destruct (bottomBoundaryLine_total document e) as [b B]; [lia|].
  rewrite B. cbn [bind]. eauto.
Qed.

(** ** One candidate index of the scan *)

Section Body.

Variable document : TextDocument.
Variables (i s : Z) (text : jsString).
Hypothesis start : findFunctionStartLine document i = Some s.
Hypothesis read : lineAt document s = Some text.

Lemma updateDiagnostics_body_no_match :
  matchDef text = None -> updateDiagnostics_body document i = Some [].
Proof.
  intros M. unfold updateDiagnostics_body.
  rewrite start. cbn [bind]. rewrite read. cbn [bind]. rewrite M. reflexivity.
Qed.

Lemma updateDiagnostics_body_valid (name : jsString) :
  matchDef text = Some name ->
  hasValidFormat document s name = Some true ->
  updateDiagnostics_body document i = Some [].
Proof.
  intros M V. unfold updateDiagnostics_body.
  rewrite start. cbn [bind]. rewrite read. cbn [bind]. rewrite M, V. reflexivity.
Qed.

Lemma updateDiagnostics_body_invalid (name : jsString) :
  matchDef text = Some name ->
  hasValidFormat document s name = Some false ->
  updateDiagnostics_body document i = Some [formatDiagnostic s text name].
Proof.
  intros M V. unfold updateDiagnostics_body.
  rewrite start. cbn [bind]. rewrite read. cbn [bind]. rewrite M, V.
  reflexivity.
Qed.

End Body.

(** What a candidate index pushes: nothing, or the one diagnostic of the
    definition line it resolves to, which is at the start of its line and
    fails the format check. *)
Lemma updateDiagnostics_body_spec (document : TextDocument) (i : Z) :
  0 <= i < lineCount document ->
  exists pushed,
    updateDiagnostics_body document i = Some pushed /\
    (pushed = [] \/
     exists s text name,
       findFunctionStartLine document i = Some s /\ i <= s /\
       lineAt document s = Some text /\
       matchDef text = Some name /\
       hasValidFormat document s name = Some false /\
       pushed = [formatDiagnostic s text name]).
Proof.
  intros R.
  destruct (findFunctionStartLine_total document i) as [s [E [Hs K]]]; [lia|].
  assert (Rs : 0 <= s < lineCount document) by (destruct K as [-> | [K _]]; lia).
  destruct (lineAt_in_range document s Rs) as [text L].
  destruct (matchDef text) as [name|] eqn:M.
  - destruct (hasValidFormat_total document s name Rs) as [[|] V].
    + exists []. split; [|left; reflexivity].
      apply (updateDiagnostics_body_valid document i s text E L name M V).
    + exists [formatDiagnostic s text name]. split.
      * apply (updateDiagnostics_body_invalid document i s text E L name M V).
      * right. exists s, text, name. repeat split; assumption.
  - exists []. split; [|left; reflexivity].
    apply (updateDiagnostics_body_no_match document i s text E L M).
Qed.

(** ** The scanning loop *)

Lemma updateDiagnostics_loop_acc (document : TextDocument) (n : nat) :
  forall i acc,
    updateDiagnostics_loop document n i acc =
      (ds <- updateDiagnostics_loop document n i [] ;; Some (acc ++ ds)).
Proof.
  induction n as [|n IH]; intros i acc.
  - simpl. rewrite app_nil_r. reflexivity.
  - cbn [updateDiagnostics_loop]. destruct (updateDiagnostics_body document i) as [p|];
      [|reflexivity].
    cbn [bind]. rewrite (IH (i + 1) (acc ++ p)), (IH (i + 1) ([] ++ p)).
    destruct (updateDiagnostics_loop document n (i + 1) []) as [ds|]; [|reflexivity].
    cbn [bind]. rewrite app_assoc. reflexivity.
Qed.

Lemma updateDiagnostics_loop_step (document : TextDocument) (n : nat) (i : Z)
    (pushed ds : list Diagnostic) :
  updateDiagnostics_body document i = Some pushed ->
  updateDiagnostics_loop document n (i + 1) [] = Some ds ->
  updateDiagnostics_loop document (S n) i [] = Some (pushed ++ ds).
Proof.
  intros B L. cbn [updateDiagnostics_loop]. rewrite B. cbn [bind].
  rewrite updateDiagnostics_loop_acc, L. reflexivity.
Qed.

Lemma updateDiagnostics_loop_total (document : TextDocument) (n : nat) :
  forall i, 0 <= i -> i + Z.of_nat n = lineCount document ->
    exists ds, updateDiagnostics_loop document n i [] = Some ds.
Proof.
  induction n as [|n IH]; intros i H0 Hn.
  - exists []. reflexivity.
  - destruct (updateDiagnostics_body_spec document i) as [p [B _]]; [lia|].
    destruct (IH (i + 1)) as [ds L]; try lia.
    exists (p ++ ds). apply updateDiagnostics_loop_step; assumption.
Qed.

Lemma scan_total (document : TextDocument) : exists ds, scan document = Some ds.
Proof.
  apply updateDiagnostics_loop_total; unfold lineCount; lia.
Qed.

(** [updateDiagnostics] is the scan for a Python document and leaves the
    stored diagnostics alone for any other. *)
Lemma updateDiagnostics_python (document : TextDocument) (stored : list Diagnostic) :
  languageId document = "python"%string ->
  updateDiagnostics document stored = scan document.
Proof. intros E. unfold updateDiagnostics. rewrite E. reflexivity. Qed.

Lemma updateDiagnostics_other (document : TextDocument) (stored : list Diagnostic) :
  languageId document <> "python"%string ->
  updateDiagnostics document stored = Some stored.
Proof.
  intros NE. unfold updateDiagnostics.
  destruct (String.eqb (languageId document) "python") eqn:E; [|reflexivity].
  apply String.eqb_eq in E. contradiction.
Qed.

(** The diagnostics of the loop are those pushed at its candidate
    indices. *)
Lemma updateDiagnostics_loop_In (document : TextDocument) (n : nat) :
  forall i ds d,
    0 <= i -> i + Z.of_nat n = lineCount document ->
    updateDiagnostics_loop document n i [] = Some ds ->
    (In d ds <->
     exists j pushed, i <= j < lineCount document /\
                      updateDiagnostics_body document j = Some pushed /\
                      In d pushed).
Proof.
  induction n as [|n IH]; intros i ds d H0 Hn L.
  - simpl in L. inversion L; subst ds. split; [contradiction|].
    intros [j [p [Hj _]]]. lia.
  - destruct (updateDiagnostics_body_spec document i) as [p [B _]]; [lia|].
    destruct (updateDiagnostics_loop_total document n (i + 1)) as [ds' L']; try lia.
    rewrite (updateDiagnostics_loop_step _ _ _ _ _ B L') in L.
    inversion L; subst ds. rewrite in_app_iff.
    rewrite (IH (i + 1) ds' d) by (try lia; exact L'). split.
    + intros [H | [j [q [Hj [Bj Hq]]]]].
      * exists i, p. split; [lia | split; assumption].
      * exists j, q. split; [lia | split; assumption].
    + intros [j [q [Hj [Bj Hq]]]]. destruct (Z.eq_dec j i) as [-> | Ne].
      * left. congruence.
      * right. exists j, q. split; [lia | split; assumption].
Qed.

Lemma scan_In (document : TextDocument) (ds : list Diagnostic) (d : Diagnostic) :
  scan document = Some ds ->
  (In d ds <->
   exists j pushed, 0 <= j < lineCount document /\
                    updateDiagnostics_body document j = Some pushed /\
                    In d pushed).
Proof.
  intros Sc.
  apply (updateDiagnostics_loop_In document (Z.to_nat (lineCount document)) 0 ds d);
    try lia.
  - unfold lineCount; lia.
  - exact Sc.
Qed.

(** Every diagnostic of a scan sits on a line that matches the definition
    pattern from its first character and fails the format check. *)
Lemma scan_diagnostic (document : TextDocument) (ds : list Diagnostic)
    (d : Diagnostic) :
  scan document = Some ds -> In d ds ->
  exists i s text name,
    0 <= i < lineCount document /\
    findFunctionStartLine document i = Some s /\ i <= s /\
    lineAt document s = Some text /\
    matchDef text = Some name /\
    hasValidFormat document s name = Some false /\
    d = formatDiagnostic s text name.
Proof.
  intros Sc H. apply (scan_In document ds d Sc) in H.
  destruct H as [j [p [Hj [B Hp]]]].
  destruct (updateDiagnostics_body_spec document j Hj) as [p' [B' K]].
  assert (p' = p) by congruence. subst p'.
  destruct K as [-> | [s [text [name [F [Hs [L [M [V ->]]]]]]]]]; [contradiction|].
  destruct Hp as [<- | []]. exists j, s, text, name. repeat split; try assumption; lia.
Qed.

(** A definition at the start of its line that fails the format check is
    reported. *)
Lemma scan_reports (document : TextDocument) (s : Z) (text name : jsString) :
  lineAt document s = Some text ->
  matchDef text = Some name ->
  hasValidFormat document s name = Some false ->
  exists ds, scan document = Some ds /\ In (formatDiagnostic s text name) ds.
Proof.
  intros L M V. destruct (scan_total document) as [ds Sc]. exists ds.
  split; [exact Sc|]. apply (scan_In document ds _ Sc).
  exists s, [formatDiagnostic s text name].
  split; [apply (lineAt_Some_range _ _ _ L)|]. split; [|left; reflexivity].
  apply (updateDiagnostics_body_invalid document s s text); try assumption.
  apply findFunctionStartLine_at_def. exists text. split; [exact L|].
  apply (matchDef_trim _ _ M).
Qed.

(** C10. The scan and its helpers read only lines of the document: a
    read outside [0, lineCount) is the only thing that raises, and for
    every document, the empty one and the one-line one among them, the
    scan returns, as do [findFunctionStartLine], [findEndOfFunction],
    [hasValidFormat] and the loop body at every index of the document. *)
Theorem scan_reads_in_range (document : TextDocument) :
  (forall i, lineAt document i = None <-> ~ (0 <= i < lineCount document)) /\
  (exists ds, scan document = Some ds) /\
  (forall i, 0 <= i < lineCount document ->
     (exists s, findFunctionStartLine document i = Some s /\
                0 <= s < lineCount document) /\
     (exists e, findEndOfFunction document i = Some e /\
                i <= e < lineCount document) /\
     (forall name, exists b, hasValidFormat document i name = Some b) /\
     (exists pushed, updateDiagnostics_body document i = Some pushed)).
Proof.
  split; [|split].
  - intros i. split.
    + intros E R. destruct (lineAt_in_range document i R) as [t L]. congruence.
    + intros NR. destruct (lineAt document i) as [t|] eqn:L; [|reflexivity].
      exfalso. apply NR. apply (lineAt_Some_range _ _ _ L).
  - apply scan_total.
  - intros i R. repeat split.
    + destruct (findFunctionStartLine_total document i) as [s [E [Hs K]]]; [lia|].
      exists s. split; [exact E|]. destruct K as [-> | [K _]]; lia.
    + apply findEndOfFunction_total; exact R.
    + intros name. apply hasValidFormat_total; exact R.
    + destruct (updateDiagnostics_body_spec document i R) as [p [B _]]. eauto.
Qed.

Lemma scan_reads_in_range_witness :
  0 <= 0 < lineCount doc_foo /\
  exists b, hasValidFormat doc_foo 0 (str "foo") = Some b.
Proof.
  assert (R : 0 <= 0 < lineCount doc_foo) by (vm_compute; split; congruence).
  split; [exact R|].
  apply (proj1 (proj2 (proj2 (proj2 (proj2 (scan_reads_in_range doc_foo)) 0 R)))).
Defined.

(** ** How often a start line is reported *)

Lemma updateDiagnostics_loop_count (document : TextDocument) (s : Z) (n : nat) :
  forall i ds,
    0 <= i -> i + Z.of_nat n = lineCount document ->
    updateDiagnostics_loop document n i [] = Some ds ->
    Z.of_nat (List.length (filter (startsAt s) ds)) <= Z.max 0 (s + 1 - i).
Proof.
  induction n as [|n IH]; intros i ds H0 Hn L.
  - simpl in L. inversion L; subst ds. simpl. lia.
  - destruct (updateDiagnostics_body_spec document i) as [p [B K]]; [lia|].
    destruct (updateDiagnostics_loop_total document n (i + 1)) as [ds' L']; try lia.
    rewrite (updateDiagnostics_loop_step _ _ _ _ _ B L') in L.
    inversion L; subst ds. rewrite filter_app, length_app, Nat2Z.inj_add.
    pose proof (IH (i + 1) ds' ltac:(lia) ltac:(lia) L') as C.
    destruct K as [-> | [r [text [name [_ [Hr [_ [_ [_ ->]]]]]]]]].
    + simpl. lia.
    + cbn [filter]. unfold startsAt at 1. cbn [formatDiagnostic range startLine].
      destruct (r =? s) eqn:E; cbn [List.length]; [apply Z.eqb_eq in E|]; lia.
Qed.

Lemma candidatesFrom_In (n : nat) : forall i j,
  i <= j < i + Z.of_nat n -> In j (candidatesFrom n i).
Proof.
  induction n as [|n IH]; intros i j H; [lia|].
  cbn [candidatesFrom]. destruct (Z.eq_dec j i) as [-> | Ne]; [left; reflexivity|].
  right. apply IH. lia.
Qed.

(** The diagnostics that candidate [i] pushes on line [s]. *)
Lemma updateDiagnostics_body_at (document : TextDocument) (s i : Z)
    (pushed : list Diagnostic) :
  0 <= i < lineCount document ->
  updateDiagnostics_body document i = Some pushed ->
  findFunctionStartLine document i <> Some s ->
  filter (startsAt s) pushed = [].
Proof.
  intros R B Ne. destruct (updateDiagnostics_body_spec document i R) as [p [B' K]].
  assert (p = pushed) by congruence. subst p.
  destruct K as [-> | [r [text [name [F [_ [_ [_ [_ ->]]]]]]]]]; [reflexivity|].
  cbn [filter]. unfold startsAt. cbn [formatDiagnostic range startLine].
  destruct (r =? s) eqn:E; [|reflexivity].
  apply Z.eqb_eq in E. subst r. contradiction.
Qed.

(** The loop holds, on the line of a failing definition, one diagnostic
    for every candidate index that resolves to it. *)
Lemma updateDiagnostics_loop_pushes (document : TextDocument) (s : Z)
    (text name : jsString) :
  lineAt document s = Some text -> matchDef text = Some name ->
  hasValidFormat document s name = Some false ->
  forall n i ds,
    0 <= i -> i + Z.of_nat n = lineCount document ->
    updateDiagnostics_loop document n i [] = Some ds ->
    List.length (filter (startsAt s) ds)
    = List.length (filter (resolvesTo document s) (candidatesFrom n i)).
Proof.
  intros L M V. induction n as [|n IH]; intros i ds H0 Hn Lp.
  - simpl in Lp. inversion Lp; subst ds. reflexivity.
  - destruct (updateDiagnostics_body_spec document i) as [p [B _]]; [lia|].
    destruct (updateDiagnostics_loop_total document n (i + 1)) as [ds' L']; try lia.
    rewrite (updateDiagnostics_loop_step _ _ _ _ _ B L') in Lp.
    inversion Lp; subst ds. rewrite filter_app, length_app.
    rewrite (IH (i + 1) ds' ltac:(lia) ltac:(lia) L').
    cbn [candidatesFrom filter]. unfold resolvesTo at 2.
    destruct (findFunctionStartLine_total document i H0) as [r [E _]].
    rewrite E. destruct (r =? s) eqn:C.
    + apply Z.eqb_eq in C. subst r.
      assert (B' : updateDiagnostics_body document i
                   = Some [formatDiagnostic s text name])
        by (apply (updateDiagnostics_body_invalid document i s text E L name M V)).
      assert (p = [formatDiagnostic s text name]) by congruence. subst p.
      cbn [filter]. unfold startsAt at 1. cbn [formatDiagnostic range startLine].
      rewrite Z.eqb_refl. reflexivity.
    + rewrite (updateDiagnostics_body_at document s i p); [reflexivity | lia | exact B |].
      rewrite E. intros K. inversion K. apply Z.eqb_neq in C. contradiction.
Qed.

(** C2, as the code has it. A scan pushes one diagnostic for every
    candidate index that resolves to a definition failing the check and
    deduplicates nothing: the line of such a definition carries exactly
    as many diagnostics as there are candidate indices resolving to it,
    so a start line can be reported several times, yet no more often than
    there are candidate indices up to it; every diagnostic is on a line
    that matches the definition pattern from its first character, never
    on a decorator line. For two decorator lines followed by such a
    definition without banner the scan yields three diagnostics, all of
    them on the definition line. *)
Theorem scan_start_lines (document : TextDocument) (ds : list Diagnostic) :
  scan document = Some ds ->
  (forall d, In d ds ->
     exists text name,
       lineAt document (startLine (range d)) = Some text /\
       matchDef text = Some name /\
       d = formatDiagnostic (startLine (range d)) text name) /\
  (forall s text name,
     lineAt document s = Some text -> matchDef text = Some name ->
     hasValidFormat document s name = Some false ->
     (forall i, 0 <= i < lineCount document ->
                findFunctionStartLine document i = Some s ->
                In (formatDiagnostic s text name) ds) /\
     List.length (filter (startsAt s) ds)
     = List.length (filter (resolvesTo document s) (candidates document)) /\
     In s (filter (resolvesTo document s) (candidates document))) /\
  (forall s, 0 <= s ->
     Z.of_nat (List.length (filter (startsAt s) ds)) <= s + 1) /\
  (forall d1 d2 def name,
     lines document = [d1; d2; def] ->
     startsWith (trim d1) (str "@") = true ->
     startsWith (trim d2) (str "@") = true ->
     matchDef def = Some name ->
     ds = [formatDiagnostic 2 def name; formatDiagnostic 2 def name;
           formatDiagnostic 2 def name]).
Proof.
  intros Sc. split; [|split; [|split]].
  - intros d H.
    destruct (scan_diagnostic document ds d Sc H)
      as [i [s [text [name [_ [_ [_ [L [M [_ ->]]]]]]]]]].
    exists text, name. simpl. auto.
  - intros s text name L M V. split; [|split].
    + intros i Hi E. apply (scan_In document ds _ Sc).
      exists i, [formatDiagnostic s text name]. split; [exact Hi|].
      split; [|left; reflexivity].
      apply (updateDiagnostics_body_invalid document i s text E L name M V).
    + unfold candidates.
      apply (updateDiagnostics_loop_pushes document s text name L M V
               (Z.to_nat (lineCount document)) 0 ds); try lia.
      * unfold lineCount; lia.
      * exact Sc.
    + apply filter_In. pose proof (lineAt_Some_range _ _ _ L) as R. split.
      * apply candidatesFrom_In. lia.
      * unfold resolvesTo. rewrite findFunctionStartLine_at_def.
        -- apply Z.eqb_refl.
        -- exists text. split; [exact L | apply (matchDef_trim _ _ M)].
  - intros s Hs.
    pose proof (updateDiagnostics_loop_count document s
                  (Z.to_nat (lineCount document)) 0 ds) as C.
    unfold scan in Sc. unfold lineCount in *. specialize (C ltac:(lia) ltac:(lia) Sc).
    lia.
  - intros d1 d2 def name E A1 A2 M.
    assert (L0 : lineAt document 0 = Some d1)
      by (apply (lineAt_nth_error document 0); rewrite E; reflexivity).
    assert (L1 : lineAt document 1 = Some d2)
      by (apply (lineAt_nth_error document 1); rewrite E; reflexivity).
    assert (L2 : lineAt document 2 = Some def)
      by (apply (lineAt_nth_error document 2); rewrite E; reflexivity).
    assert (D : defAt document 2)
      by (exists def; split; [exact L2 | apply (matchDef_trim _ _ M)]).
    assert (K0 : skippedAt document 0) by (exists d1; auto).
    assert (K1 : skippedAt document 1) by (exists d2; auto).
    assert (V : hasValidFormat document 2 name = Some false)
      by (apply hasValidFormat_below_3; [exact D | lia]).
    assert (F : forall i, 0 <= i <= 2 -> findFunctionStartLine document i = Some 2).
    { intros i Hi.
      apply (findFunctionStartLine_first_def document i 2); [lia | lia | exact D |].
      intros j Hj. assert (C : j = 0 \/ j = 1) by lia.
      destruct C as [-> | ->]; assumption. }
    assert (B : forall i, 0 <= i <= 2 ->
                updateDiagnostics_body document i = Some [formatDiagnostic 2 def name]).
    { intros i Hi.
      apply (updateDiagnostics_body_invalid document i 2 def (F i Hi) L2 name M V). }
    unfold scan, lineCount in Sc. rewrite E in Sc. simpl in Sc.
    rewrite (B 0), (B 1), (B 2) in Sc by lia. simpl in Sc. congruence.
Qed.

Lemma scan_start_lines_witness :
  scan doc_decorated
  = Some [formatDiagnostic 2 (str "def foo():") (str "foo");
          formatDiagnostic 2 (str "def foo():") (str "foo");
          formatDiagnostic 2 (str "def foo():") (str "foo")] /\
  List.length (filter (startsAt 2)
     [formatDiagnostic 2 (str "def foo():") (str "foo");
      formatDiagnostic 2 (str "def foo():") (str "foo");
      formatDiagnostic 2 (str "def foo():") (str "foo")])
  = List.length (filter (resolvesTo doc_decorated 2) (candidates doc_decorated)) /\
  filter (resolvesTo doc_decorated 2) (candidates doc_decorated) = [0; 1; 2].
Proof.
  split; [reflexivity|]. split; [|reflexivity].
  apply (proj1 (proj2 (proj1 (proj2 (scan_start_lines doc_decorated _ eq_refl))
                         2 (str "def foo():") (str "foo")
                         eq_refl eq_refl eq_refl))).
Defined.

(** C2 as stated fails: the definition line of [doc_decorated] (two
    decorator lines, then a definition without banner) is reported three
    times by one scan, once for each candidate index 0, 1 and 2. *)
Lemma decorated_def_reported_thrice :
  exists d, scan doc_decorated = Some [d; d; d] /\ startLine (range d) = 2.
Proof.
  exists (formatDiagnostic 2 (str "def foo():") (str "foo")).
  split; reflexivity.
Qed.

(** C3 and the definitions the scan does not see: in [doc_method] the
    trimmed text of line 1 matches the definition pattern with name
    [foo] and [hasValidFormat] is [false] there, yet the scan, which
    applies the pattern to the untrimmed text, reports nothing. *)
Lemma indented_def_not_reported :
  (exists text, lineAt doc_method 1 = Some text /\
                matchDef (trim text) = Some (str "foo")) /\
  hasValidFormat doc_method 1 (str "foo") = Some false /\
  scan doc_method = Some [].
Proof.
  split; [exists (str "    def foo(self):"); split; reflexivity|].
  split; reflexivity.
Qed.

(** C9 at the same document: the function of [doc_method] starts on
    line 1, below 3; nothing raises, and nothing is reported for it. *)
Lemma method_below_3_not_reported :
  defAt doc_method 1 /\ 1 < 3 /\
  findFunctionStartLine doc_method 1 = Some 1 /\
  scan doc_method = Some [].
Proof.
  split; [exists (str "    def foo(self):"); split; reflexivity|].
  split; [lia|]. split; reflexivity.
Qed.

(** For a definition that starts its line, too little room above is an
    ordinary violation. *)
Lemma def_below_3_reported (document : TextDocument) (s : Z)
    (text name : jsString) :
  lineAt document s = Some text -> matchDef text = Some name -> s < 3 ->
  exists ds, scan document = Some ds /\ In (formatDiagnostic s text name) ds.
Proof.
  intros L M H. apply scan_reports; try assumption.
  apply hasValidFormat_below_3; [|exact H].
  exists text. split; [exact L | apply (matchDef_trim _ _ M)].
Qed.

Lemma doc_foo_scan :
  scan doc_foo = Some [formatDiagnostic 0 (str "def foo():") (str "foo")].
Proof. reflexivity. Qed.

Lemma doc_banner_scan : scan doc_banner = Some [].
Proof. reflexivity. Qed.

(** ** The inserted texts as lines *)

Lemma splitLines_aux_line (a : jsString) : forall cur b,
  noNewline a = true ->
  splitLines_aux cur (a ++ newline ++ b) = (rev cur ++ a) :: splitLines_aux [] b.
Proof.
  induction a as [|c a IH]; intros cur b H.
  - simpl. rewrite app_nil_r. reflexivity.
  - simpl in H. apply andb_true_iff in H. destruct H as [Hc Ha].
    change ((c :: a) ++ newline ++ b) with (c :: (a ++ newline ++ b)).
    cbn [splitLines_aux]. destruct (N.eqb c 10); [discriminate|].
    rewrite (IH (c :: cur) b Ha). cbn [rev]. rewrite <- app_assoc. reflexivity.
Qed.

Lemma splitLines_line (a b : jsString) :
  noNewline a = true -> splitLines (a ++ newline ++ b) = a :: splitLines b.
Proof. intros H. unfold splitLines. rewrite splitLines_aux_line by exact H. reflexivity. Qed.

Lemma noNewline_app (a b : jsString) :
  noNewline a = true -> noNewline b = true -> noNewline (a ++ b) = true.
Proof. intros Ha Hb. unfold noNewline in *. rewrite forallb_app, Ha, Hb. reflexivity. Qed.

Lemma wordChars_noNewline (name : jsString) :
  forallb isWordChar name = true -> noNewline name = true.
Proof.
  intros H. unfold noNewline. rewrite forallb_forall in *. intros c Hc.
  specialize (H c Hc). destruct (N.eqb c 10) eqn:E; [|reflexivity].
  apply N.eqb_eq in E. subst c. discriminate H.
Qed.

Lemma splitLines_openingText (name : jsString) :
  forallb isWordChar name = true ->
  splitLines (openingText name) = [topComment; functionComment name; topComment; []].
Proof.
  intros W. unfold openingText.
  rewrite splitLines_line by reflexivity.
  rewrite splitLines_line
    by (apply noNewline_app; [reflexivity | apply wordChars_noNewline; exact W]).
  rewrite <- (app_nil_r newline), splitLines_line by reflexivity. reflexivity.
Qed.

Lemma splitLines_closingText (name : jsString) :
  forallb isWordChar name = true ->
  splitLines (closingText name) = [[]; bottomComment name; []].
Proof.
  intros W. unfold closingText.
  change (newline ++ bottomComment name ++ newline)
    with ([] ++ newline ++ bottomComment name ++ newline).
  rewrite splitLines_line by reflexivity.
  rewrite <- (app_nil_r newline), splitLines_line; [reflexivity|].
  unfold bottomComment. apply noNewline_app; [reflexivity|].
  apply noNewline_app; [apply wordChars_noNewline; exact W | reflexivity].
Qed.

(** ** The two insertions of a fix *)

(** The opening banner lands on three new lines above line [s]. *)
Lemma insertAt_opening (ls : list jsString) (s : nat) (text name : jsString) :
  forallb isWordChar name = true ->
  nth_error ls s = Some text ->
  insertAt ls (mkInsert (Z.of_nat s) 0 (openingText name))
  = firstn s ls ++ [topComment; functionComment name; topComment; text]
      ++ skipn (S s) ls.
Proof.
  intros W E. assert (Hs : (s < List.length ls)%nat)
    by (apply nth_error_Some; congruence).
  unfold insertAt. cbn [editLine editCharacter newText]. rewrite Nat2Z.id.
  destruct (List.length ls) as [|m] eqn:Len; [lia|].
  destruct (Nat.ltb s (S m)) eqn:C; [|apply Nat.ltb_ge in C; lia].
  rewrite (nth_error_nth ls s [] E). change (Z.to_nat 0) with O.
  cbn [firstn skipn]. unfold splice. rewrite (splitLines_openingText name W).
  reflexivity.
Qed.

(** The closing banner leaves the lines up to [s] as they are when it is
    inserted below line [s]. *)
Lemma insertAt_closing_prefix (ls : list jsString) (s : nat) (l : Z)
    (name : jsString) :
  forallb isWordChar name = true ->
  (s < List.length ls)%nat -> Z.of_nat s < l ->
  firstn (S s) (insertAt ls (mkInsert l 0 (closingText name))) = firstn (S s) ls.
Proof.
  intros W Hs Hl. unfold insertAt. cbn [editLine editCharacter newText].
  destruct (List.length ls) as [|m] eqn:Len; [lia|].
  destruct (Nat.ltb (Z.to_nat l) (S m)) eqn:C.
  - apply Nat.ltb_lt in C. rewrite firstn_app, firstn_firstn.
    rewrite length_firstn. replace (Nat.min (S s) (Z.to_nat l)) with (S s) by lia.
    replace (S s - Nat.min (Z.to_nat l) (List.length ls))%nat with O by lia.
    cbn [firstn]. apply app_nil_r.
  - unfold splice. rewrite (splitLines_closingText name W).
    cbn [removelast last app]. rewrite app_nil_r.
    assert (E : firstn m ls ++ [nth m ls []] = ls).
    { assert (H : nth_error ls m = Some (nth m ls []))
        by (apply nth_error_nth'; lia).
      rewrite <- (firstn_skipn_middle m ls H) at 3. f_equal. f_equal.
      rewrite skipn_all2 by lia. reflexivity. }
    change (firstn m ls ++ [nth m ls []; bottomComment name; []])
      with (firstn m ls ++ [nth m ls []] ++ [bottomComment name; []]).
    rewrite app_assoc, E, firstn_app.
    replace (S s - List.length ls)%nat with O by lia.
    cbn [firstn]. apply app_nil_r.
Qed.

(** ** A definition under its banner *)

(** A definition at the start of its line with the three banner lines
    right above it passes the check, whatever follows. *)
Lemma hasValidFormat_under_banner (document : TextDocument)
    (pre rest : list jsString) (text name : jsString) :
  lines document
  = pre ++ [topComment; functionComment name; topComment; text] ++ rest ->
  matchDef text = Some name ->
  lineAt document (Z.of_nat (List.length pre) + 3) = Some text /\
  hasValidFormat document (Z.of_nat (List.length pre) + 3) name = Some true.
Proof.
  intros E M. set (n := List.length pre).
  assert (A : forall k x,
             nth_error [topComment; functionComment name; topComment; text] k = Some x ->
             lineAt document (Z.of_nat n + Z.of_nat k) = Some x).
  { intros k x H. rewrite <- Nat2Z.inj_add. apply lineAt_nth_error.
    rewrite E, nth_error_app2 by lia. replace (n + k - List.length pre)%nat with k by lia.
    assert (k < 4)%nat by (apply nth_error_Some in H || idtac;
                            destruct k as [|[|[|[|k]]]]; simpl in *; try lia;
                            destruct k; discriminate).
    rewrite nth_error_app1 by (simpl; lia). exact H. }
  pose proof (A 0%nat _ eq_refl) as L1. pose proof (A 1%nat _ eq_refl) as L2.
  pose proof (A 2%nat _ eq_refl) as L3. pose proof (A 3%nat _ eq_refl) as L4.
  change (Z.of_nat 3) with 3 in L4. split; [exact L4|].
  destruct (matchDef_trim _ _ M) as [D P].
  rewrite (hasValidFormat_at_def document (Z.of_nat n + 3) name
             topComment (functionComment name) topComment text).
  - rewrite trim_topComment, (trim_functionComment _ _ M), P, !strEq_refl. reflexivity.
  - exists text. split; [exact L4 | exact D].
  - lia.
  - replace (Z.of_nat n + 3 - 3) with (Z.of_nat n + Z.of_nat 0) by lia. exact L1.
  - replace (Z.of_nat n + 3 - 2) with (Z.of_nat n + Z.of_nat 1) by lia. exact L2.
  - replace (Z.of_nat n + 3 - 1) with (Z.of_nat n + Z.of_nat 2) by lia. exact L3.
  - exact L4.
Qed.

(** The document after the two insertions of a fix: the lines above the
    definition, the banner, the definition, and what follows. *)
Lemma applyEdits_fix (document : TextDocument) (s e : Z) (text name : jsString) :
  lineAt document s = Some text ->
  forallb isWordChar name = true ->
  s <= e ->
  exists rest,
    lines (applyEdits document
             [mkInsert s 0 (openingText name); mkInsert (e + 1) 0 (closingText name)])
    = firstn (Z.to_nat s) (lines document)
        ++ [topComment; functionComment name; topComment; text] ++ rest.
Proof.
  intros L W He. pose proof (lineAt_Some_range _ _ _ L) as R.
  pose proof (lineAt_Some_nth_error _ _ _ L) as E.
  unfold applyEdits, lineCount in *. cbn [lines fold_right].
  set (n := Z.to_nat s) in *.
  set (ls1 := insertAt (lines document) (mkInsert (e + 1) 0 (closingText name))).
  assert (P : firstn (S n) ls1 = firstn (S n) (lines document))
    by (apply insertAt_closing_prefix; [exact W | lia | lia]).
  assert (E1 : nth_error ls1 n = Some text).
  { pose proof (nth_error_firstn (S n) ls1 n) as A.
    pose proof (nth_error_firstn (S n) (lines document) n) as B.
    replace (Nat.ltb n (S n)) with true in A, B by (symmetry; apply Nat.ltb_lt; lia).
    rewrite <- A, P, B. exact E. }
  assert (P' : firstn n ls1 = firstn n (lines document)).
  { pose proof (firstn_firstn ls1 n (S n)) as A.
    pose proof (firstn_firstn (lines document) n (S n)) as B.
    replace (Nat.min n (S n)) with n in A, B by lia.
    rewrite <- A, P, B. reflexivity. }
  exists (skipn (S n) ls1).
  replace s with (Z.of_nat n) by lia.
  rewrite (insertAt_opening ls1 n text name W E1), P'. reflexivity.
Qed.

(** C7. Round trip: for a diagnostic of a scan, the fix inserts the three
    banner lines before the start line and a blank line with the closing
    banner after the end line; in the resulting document the definition
    is three lines further down, it passes [hasValidFormat], and a new
    scan has no diagnostic for it. *)
Theorem fix_then_rescan (document : TextDocument) (ds : list Diagnostic)
    (d : Diagnostic) :
  scan document = Some ds -> In d ds ->
  exists name e edits ds',
    findEndOfFunction document (startLine (range d)) = Some e /\
    edits = [mkInsert (startLine (range d)) 0 (openingText name);
             mkInsert (e + 1) 0 (closingText name)] /\
    fixDiagnostic document d = Some edits /\
    provideCodeActions document [d] = Some (Some edits) /\
    lineAt (applyEdits document edits) (startLine (range d) + 3)
      = lineAt document (startLine (range d)) /\
    hasValidFormat (applyEdits document edits) (startLine (range d) + 3) name
      = Some true /\
    scan (applyEdits document edits) = Some ds' /\
    (forall d', In d' ds' -> startLine (range d') <> startLine (range d) + 3).
Proof.
  intros Sc H.
  destruct (scan_diagnostic document ds d Sc H)
    as [i [s [text [name [_ [_ [_ [L [M [_ ->]]]]]]]]]].
  cbn [formatDiagnostic range startLine].
  pose proof (lineAt_Some_range _ _ _ L) as R.
  destruct (findEndOfFunction_total document s R) as [e [Fe Re]].
  destruct (matchDef_Some _ _ M) as [q [c [tl [_ [_ [W _]]]]]].
  assert (D : defAt document s)
    by (exists text; split; [exact L | apply (matchDef_trim _ _ M)]).
  set (edits := [mkInsert s 0 (openingText name); mkInsert (e + 1) 0 (closingText name)]).
  assert (Fx : fixDiagnostic document (formatDiagnostic s text name) = Some edits).
  { unfold fixDiagnostic. cbn [formatDiagnostic range startLine].
    rewrite (findFunctionStartLine_at_def _ _ D). cbn [bind]. rewrite L. cbn [bind].
    rewrite M, Fe. reflexivity. }
  destruct (applyEdits_fix document s e text name L W) as [rest E]; [lia|].
  fold edits in E.
  assert (Len : Z.of_nat (List.length (firstn (Z.to_nat s) (lines document))) = s)
    by (rewrite length_firstn; unfold lineCount in R; lia).
  destruct (hasValidFormat_under_banner (applyEdits document edits) _ rest text name E M)
    as [L' V].
  rewrite Len in L', V.
  destruct (scan_total (applyEdits document edits)) as [ds' Sc'].
  exists name, e, edits, ds'. repeat split; try assumption.
  - unfold provideCodeActions.
    replace (filter (fun d => String.eqb (code d) "functionFormat")
               [formatDiagnostic s text name])
      with [formatDiagnostic s text name] by reflexivity.
    cbn [forEachDiagnostic]. rewrite Fx. cbn [bind]. rewrite app_nil_r. reflexivity.
  - congruence.
  - intros d' H' Eq.
    destruct (scan_diagnostic _ ds' d' Sc' H')
      as [i' [s' [text' [name' [_ [_ [_ [Ls [Ms [Vs ->]]]]]]]]]].
    cbn [formatDiagnostic range startLine] in Eq. subst s'.
    assert (text' = text) by congruence. subst text'.
    assert (name' = name) by congruence. subst name'. congruence.
Qed.

Lemma fix_then_rescan_witness :
  exists name e edits ds',
    findEndOfFunction doc_foo 0 = Some e /\
    edits = [mkInsert 0 0 (openingText name); mkInsert (e + 1) 0 (closingText name)] /\
    fixDiagnostic doc_foo (formatDiagnostic 0 (str "def foo():") (str "foo"))
      = Some edits /\
    provideCodeActions doc_foo [formatDiagnostic 0 (str "def foo():") (str "foo")]
      = Some (Some edits) /\
    lineAt (applyEdits doc_foo edits) (0 + 3) = lineAt doc_foo 0 /\
    hasValidFormat (applyEdits doc_foo edits) (0 + 3) name = Some true /\
    scan (applyEdits doc_foo edits) = Some ds' /\
    (forall d', In d' ds' -> startLine (range d') <> 0 + 3).
Proof.
  apply (fix_then_rescan doc_foo
           [formatDiagnostic 0 (str "def foo():") (str "foo")]
           (formatDiagnostic 0 (str "def foo():") (str "foo"))).
  - reflexivity.
  - left. reflexivity.
Defined.

(** * Further properties of the source *)

(** ** What [findFunctionStartLine] returns *)

(** The loop returns the line it was asked about, or a definition line
    reached over blank and decorator lines only. *)
Lemma findFunctionStartLine_loop_sound (document : TextDocument) (startLine : Z)
    (n : nat) : forall i,
  0 <= i -> i + Z.of_nat n = lineCount document ->
  exists r, findFunctionStartLine_loop document startLine n i = Some r /\
            (r = startLine \/
             (i <= r < lineCount document /\ defAt document r /\
              forall j, i <= j < r -> skippedAt document j)).
Proof.
  induction n as [|n IH]; intros i H0 Hn.
  - exists startLine. split; [reflexivity | left; reflexivity].
  - destruct (lineAt_in_range document i) as [text L]; [lia|].
    rewrite (findFunctionStartLine_loop_step _ _ _ _ _ L).
    destruct (startsWith (trim text) (str "def ")) eqn:D.
    + exists i. split; [reflexivity|]. right. split; [lia|].
      split; [exists text; auto | intros j Hj; lia].
    + destruct (negb (startsWith (trim text) (str "@"))
                && negb (strEq (trim text) [])) eqn:C.
      * exists startLine. split; [reflexivity | left; reflexivity].
      * destruct (IH (i + 1)) as [r [E R]]; try lia.
        exists r. split; [exact E|].
        destruct R as [R | [R1 [R2 R3]]]; [left; exact R|].
        right. split; [lia|]. split; [exact R2|].
        intros j Hj. destruct (Z.eq_dec j i) as [-> | Ne]; [|apply R3; lia].
        exists text. split; [exact L|].
        apply andb_false_iff in C. destruct C as [C | C].
        -- right. apply negb_false_iff in C. exact C.
        -- left. apply negb_false_iff in C. apply strEq_true in C. exact C.
Qed.

Lemma findFunctionStartLine_sound (document : TextDocument) (i r : Z) :
  0 <= i -> findFunctionStartLine document i = Some r ->
  r = i \/
  (i < r < lineCount document /\ defAt document r /\
   forall j, i <= j < r -> skippedAt document j).
Proof.
  intros H0 E. destruct (Z_lt_le_dec i (lineCount document)) as [Lt | Ge].
  - destruct (findFunctionStartLine_loop_sound document i
                (Z.to_nat (lineCount document - i)) i) as [r' [E' R]]; try lia.
    unfold findFunctionStartLine in E. assert (r' = r) by congruence. subst r'.
    destruct R as [R | [R1 [R2 R3]]]; [left; exact R|].
    destruct (Z.eq_dec r i) as [-> | Ne]; [left; reflexivity|].
    right. split; [lia | split; assumption].
  - rewrite (findFunctionStartLine_past_end _ _ Ge) in E. left. congruence.
Qed.

(** A negative index is read at once, which raises. *)
Lemma findFunctionStartLine_negative (document : TextDocument) (i : Z) :
  i < 0 -> findFunctionStartLine document i = None.
Proof.
  intros H. unfold findFunctionStartLine.
  assert (0 <= lineCount document) by (unfold lineCount; lia).
  destruct (Z.to_nat (lineCount document - i)) as [|n] eqn:E; [lia|].
  cbn [findFunctionStartLine_loop]. unfold lineAt.
  replace (i <? 0) with true by (symmetry; apply Z.ltb_lt; exact H). reflexivity.
Qed.

(** Resolving twice is resolving once: the start line of a start line is
    itself, so the second resolution that [hasValidFormat] performs on
    the line handed over by the scan changes nothing. *)
Theorem findFunctionStartLine_idempotent (document : TextDocument) (i r : Z) :
  findFunctionStartLine document i = Some r ->
  findFunctionStartLine document r = Some r /\
  forall name, hasValidFormat document i name = hasValidFormat document r name.
Proof.
  intros E. assert (F : findFunctionStartLine document r = Some r).
  { destruct (Z_lt_le_dec i 0) as [Neg | H0].
    - rewrite (findFunctionStartLine_negative _ _ Neg) in E. discriminate.
    - destruct (findFunctionStartLine_sound document i r H0 E) as [-> | [_ [D _]]].
      + exact E.
      + apply findFunctionStartLine_at_def; exact D. }
  split; [exact F|]. intros name. unfold hasValidFormat. rewrite E, F. reflexivity.
Qed.

Lemma findFunctionStartLine_idempotent_witness :
  findFunctionStartLine doc_decorated 2 = Some 2 /\
  forall name, hasValidFormat doc_decorated 0 name = hasValidFormat doc_decorated 2 name.
Proof.
  apply (findFunctionStartLine_idempotent doc_decorated 0 2). reflexivity.
Defined.

(** A later candidate never resolves to an earlier start line. *)
Lemma findFunctionStartLine_mono (document : TextDocument) (i j a b : Z) :
  0 <= i -> i <= j ->
  findFunctionStartLine document i = Some a ->
  findFunctionStartLine document j = Some b ->
  a <= b.
Proof.
  intros H0 Hij Ea Eb.
  destruct (findFunctionStartLine_total document j) as [b' [Eb' [Hb _]]]; [lia|].
  assert (b' = b) by congruence. subst b'.
  destruct (findFunctionStartLine_sound document i a H0 Ea) as [-> | [Ha [D Sk]]];
    [lia|].
  destruct (Z_lt_le_dec a j) as [Lt | Ge]; [lia|].
  assert (F : findFunctionStartLine document j = Some a).
  { apply findFunctionStartLine_first_def; try lia; [exact D|].
    intros k Hk. apply Sk. lia. }
  assert (a = b) by congruence. lia.
Qed.

(** [findFunctionStartLine] only moves forward, stays inside the
    document, and moves only onto a definition line with nothing but
    blank and decorator lines passed over; candidates in increasing order
    resolve to start lines in increasing order. *)
Theorem findFunctionStartLine_forward (document : TextDocument) (i r : Z) :
  0 <= i < lineCount document ->
  findFunctionStartLine document i = Some r ->
  i <= r < lineCount document /\
  (r <> i ->
   defAt document r /\ forall j, i <= j < r -> skippedAt document j) /\
  (forall j b, i <= j -> findFunctionStartLine document j = Some b -> r <= b).
Proof.
  intros R E. split; [|split].
  - destruct (findFunctionStartLine_sound document i r ltac:(lia) E)
      as [-> | [Hr _]]; lia.
  - intros Ne.
    destruct (findFunctionStartLine_sound document i r ltac:(lia) E)
      as [-> | [_ K]]; [contradiction | exact K].
  - intros j b Hj Eb. apply (findFunctionStartLine_mono document i j r b); try lia;
      assumption.
Qed.

Lemma findFunctionStartLine_forward_witness :
  0 <= 0 < lineCount doc_decorated /\
  0 <= 2 < lineCount doc_decorated /\
  (2 <> 0 ->
   defAt doc_decorated 2 /\ forall j, 0 <= j < 2 -> skippedAt doc_decorated j).
Proof.
  assert (R : 0 <= 0 < lineCount doc_decorated) by (vm_compute; split; congruence).
  split; [exact R|].
  pose proof (findFunctionStartLine_forward doc_decorated 0 2 R eq_refl) as [A [B _]].
  split; [exact A | exact B].
Defined.

(** ** What [findEndOfFunction] returns *)

Lemma defAt_endsBlockAt (document : TextDocument) (indentation j : Z) :
  defAt document j -> endsBlockAt document indentation j.
Proof.
  intros [text [L D]]. exists text. split; [exact L|]. split; [|right; exact D].
  intros E. rewrite E in D. discriminate.
Qed.

(** The loop passes over no line that ends the block, and stops right
    before one or on the last line. *)
Lemma findEndOfFunction_loop_sound (document : TextDocument) (indentation : Z)
    (n : nat) : forall i,
  0 <= i -> i + Z.of_nat n = lineCount document ->
  exists e, findEndOfFunction_loop document indentation n i = Some e /\
            i - 1 <= e < lineCount document /\
            (forall j, i <= j <= e -> ~ endsBlockAt document indentation j) /\
            (e = lineCount document - 1 \/ endsBlockAt document indentation (e + 1)).
Proof.
  induction n as [|n IH]; intros i H0 Hn.
  - exists (lineCount document - 1). split; [reflexivity|]. split; [lia|].
    split; [intros j Hj; lia | left; reflexivity].
  - destruct (lineAt_in_range document i) as [text L]; [lia|].
    rewrite (findEndOfFunction_loop_step _ _ _ _ _ L).
    destruct (IH (i + 1)) as [e [E [Re [N K]]]]; try lia.
    assert (Keep : ~ endsBlockAt document indentation i ->
                   exists e', findEndOfFunction_loop document indentation n (i + 1)
                              = Some e' /\
                     i - 1 <= e' < lineCount document /\
                     (forall j, i <= j <= e' -> ~ endsBlockAt document indentation j) /\
                     (e' = lineCount document - 1
                      \/ endsBlockAt document indentation (e' + 1))).
    { intros NE. exists e. split; [exact E|]. split; [lia|]. split; [|exact K].
      intros j Hj. destruct (Z.eq_dec j i) as [-> | Ne]; [exact NE | apply N; lia]. }
    destruct (strEq (trim text) []) eqn:B.
    + apply Keep. intros [t [Lt [Bt _]]]. apply strEq_true in B. congruence.
    + destruct ((firstNonWhitespaceCharacterIndex text <? indentation)
                || startsWith (trim text) (str "def ")) eqn:C.
      * exists (i - 1). split; [reflexivity|]. split; [lia|].
        split; [intros j Hj; lia|]. right. replace (i - 1 + 1) with i by lia.
        exists text. split; [exact L|]. split; [apply strEq_false; exact B|].
        apply orb_true_iff in C. destruct C as [C | C]; [left | right; exact C].
        apply Z.ltb_lt; exact C.
      * apply Keep. intros [t [Lt [_ Ct]]]. assert (t = text) by congruence. subst t.
        apply orb_false_iff in C. destruct C as [C1 C2].
        destruct Ct as [Ct | Ct]; [apply Z.ltb_ge in C1; lia | congruence].
Qed.

Lemma findEndOfFunction_sound (document : TextDocument) (s e indentation : Z) :
  indentationAt document s indentation ->
  findEndOfFunction document s = Some e ->
  s <= e < lineCount document /\
  (forall j, s < j <= e -> ~ endsBlockAt document indentation j) /\
  (e = lineCount document - 1 \/ endsBlockAt document indentation (e + 1)).
Proof.
  intros [text [L ->]] E. pose proof (lineAt_Some_range _ _ _ L) as R.
  unfold findEndOfFunction in E. rewrite L in E. cbn [bind] in E.
  destruct (findEndOfFunction_loop_sound document
              (firstNonWhitespaceCharacterIndex text)
              (Z.to_nat (lineCount document - (s + 1))) (s + 1))
    as [e' [E' [Re [N K]]]]; try lia.
  assert (e' = e) by congruence. subst e'.
  split; [lia|]. split; [|exact K]. intros j Hj. apply N. lia.
Qed.

(** The block that [findEndOfFunction] delimits holds, after its first
    line, no line that ends it: no other definition line and no line
    that is not blank and indented less than the first; and it is
    maximal, stopping at the last line or right before such a line. *)
Theorem findEndOfFunction_block (document : TextDocument) (s e indentation : Z) :
  indentationAt document s indentation ->
  findEndOfFunction document s = Some e ->
  s <= e < lineCount document /\
  (forall j, s < j <= e -> ~ defAt document j) /\
  (forall j text, s < j <= e -> lineAt document j = Some text ->
                  trim text = [] \/
                  indentation <= firstNonWhitespaceCharacterIndex text) /\
  (e = lineCount document - 1 \/ endsBlockAt document indentation (e + 1)).
Proof.
  intros I E. destruct (findEndOfFunction_sound document s e indentation I E)
    as [R [N K]].
  split; [exact R|]. split; [|split; [|exact K]].
  - intros j Hj D. apply (N j Hj). apply defAt_endsBlockAt; exact D.
  - intros j text Hj L. destruct (strEq (trim text) []) eqn:B;
      [left; apply strEq_true; exact B|].
    right. destruct (Z_lt_le_dec (firstNonWhitespaceCharacterIndex text) indentation)
      as [Lt | Ge]; [|exact Ge].
    exfalso. apply (N j Hj). exists text. split; [exact L|].
    split; [apply strEq_false; exact B | left; exact Lt].
Qed.

Lemma findEndOfFunction_block_witness :
  indentationAt doc_class 1 4 /\
  1 <= 3 < lineCount doc_class /\
  (forall j, 1 < j <= 3 -> ~ defAt doc_class j).
Proof.
  assert (I : indentationAt doc_class 1 4).
  { exists (str "    def foo(self):"). split; reflexivity. }
  split; [exact I|].
  pose proof (findEndOfFunction_block doc_class 1 3 4 I eq_refl) as [A [B _]].
  split; [exact A | exact B].
Defined.

(** The blocks of two definition lines never overlap: the block of the
    earlier one ends before the later definition line. *)
Theorem blocks_disjoint (document : TextDocument) (s1 s2 e1 : Z) :
  0 <= s1 < s2 -> defAt document s2 ->
  findEndOfFunction document s1 = Some e1 ->
  s1 <= e1 < s2.
Proof.
  intros H D E.
  assert (exists ind, indentationAt document s1 ind) as [ind I].
  { unfold findEndOfFunction in E. destruct (lineAt document s1) as [text|] eqn:L;
      [|discriminate].
    exists (firstNonWhitespaceCharacterIndex text), text. auto. }
  destruct (findEndOfFunction_sound document s1 e1 ind I E) as [R [N _]].
  split; [lia|]. destruct (Z_lt_le_dec e1 s2) as [Lt | Ge]; [exact Lt|].
  exfalso. apply (N s2); [lia|]. apply defAt_endsBlockAt; exact D.
Qed.

Lemma blocks_disjoint_witness :
  0 <= 0 < 5 /\ defAt doc_two 5 /\ 0 <= 4 < 5.
Proof.
  assert (D : defAt doc_two 5).
  { exists (str "def b():"). split; reflexivity. }
  split; [lia|]. split; [exact D|].
  apply (blocks_disjoint doc_two 0 5 4); [lia | exact D | reflexivity].
Defined.

Lemma firstNonWhitespaceCharacterIndex_nonneg (text : jsString) :
  0 <= firstNonWhitespaceCharacterIndex text.
Proof.
  unfold firstNonWhitespaceCharacterIndex, trimStart.
  assert (H : (List.length (dropWhile isWhiteSpace text) <= List.length text)%nat).
  { induction text as [|c t IH]; simpl; [lia|].
    destruct (isWhiteSpace c); simpl; lia. }
  lia.
Qed.

Lemma endsBlockAt_0 (document : TextDocument) (j : Z) :
  endsBlockAt document 0 j <-> defAt document j.
Proof.
  split; [|apply defAt_endsBlockAt].
  intros [text [L [_ [C | C]]]].
  - pose proof (firstNonWhitespaceCharacterIndex_nonneg text). lia.
  - exists text. auto.
Qed.

Lemma findEndOfFunction_before_next_def (document : TextDocument) (s k : Z)
    (text : jsString) :
  lineAt document s = Some text ->
  firstNonWhitespaceCharacterIndex text = 0 ->
  s < k -> defAt document k ->
  (forall j, s < j < k -> ~ defAt document j) ->
  findEndOfFunction document s = Some (k - 1).
Proof.
  intros L I Hk D N. pose proof (lineAt_Some_range _ _ _ L) as R.
  unfold findEndOfFunction. rewrite L. cbn [bind]. rewrite I.
  apply findEndOfFunction_loop_stop; try lia.
  - apply endsBlockAt_0; exact D.
  - intros j Hj E. apply (N j); [lia | apply endsBlockAt_0; exact E].
Qed.

(** A definition that starts its line has a block that only another
    definition line can end: it runs to the line before the next line
    whose trimmed text begins with ["def "], whatever lies between, and
    to the last line of the document when there is none. *)
Theorem findEndOfFunction_top_level (document : TextDocument) (s : Z)
    (text : jsString) :
  lineAt document s = Some text ->
  firstNonWhitespaceCharacterIndex text = 0 ->
  (forall k, s < k -> defAt document k ->
     (forall j, s < j < k -> ~ defAt document j) ->
     findEndOfFunction document s = Some (k - 1)) /\
  ((forall j, s < j < lineCount document -> ~ defAt document j) ->
   findEndOfFunction document s = Some (lineCount document - 1)).
Proof.
  intros L I. split.
  - intros k Hk D N. apply (findEndOfFunction_before_next_def document s k text);
      assumption.
  - intros N. pose proof (lineAt_Some_range _ _ _ L) as R.
    unfold findEndOfFunction. rewrite L. cbn [bind]. rewrite I.
    apply findEndOfFunction_loop_end; try lia.
    intros j Hj E. apply (N j); [lia | apply endsBlockAt_0; exact E].
Qed.

Lemma findEndOfFunction_top_level_witness :
  lineAt doc_trailing 0 = Some (str "def foo():") /\
  findEndOfFunction doc_trailing 0 = Some (lineCount doc_trailing - 1).
Proof.
  split; [reflexivity|].
  apply (proj2 (findEndOfFunction_top_level doc_trailing 0 (str "def foo():")
                  eq_refl eq_refl)).
  intros j Hj [t [L D]]. change (lineCount doc_trailing) with 3 in Hj.
  assert (K : j = 1 \/ j = 2) by lia.
  destruct K as [-> | ->]; vm_compute in L; inversion L; subst t; discriminate D.
Defined.

(** ** Validity of the functions the scan finds *)

Lemma found_function_decision (document : TextDocument) (s : Z)
    (text name : jsString) :
  lineAt document s = Some text -> matchDef text = Some name ->
  exists b, hasValidFormat document s name = Some b /\
            (b = true <-> 3 <= s /\ bannerAbove document s name).
Proof.
  intros L M. destruct (matchDef_trim _ _ M) as [D P].
  assert (Da : defAt document s) by (exists text; auto).
  assert (Df : definesAt document s name) by (exists text; auto).
  destruct (hasValidFormat_decision document s name Da) as [b [E I]].
  exists b. split; [exact E | tauto].
Qed.

(** For a definition that the scan finds, with the name the scan parses,
    the check of the definition line inside [hasValidFormat] always
    holds: the function is valid exactly when there is room for the
    banner and the banner is in place. *)
Theorem found_function_valid_iff (document : TextDocument) (s : Z)
    (text name : jsString) :
  lineAt document s = Some text -> matchDef text = Some name ->
  (hasValidFormat document s name = Some true <->
   3 <= s /\ bannerAbove document s name) /\
  (hasValidFormat document s name = Some false <->
   ~ (3 <= s /\ bannerAbove document s name)).
Proof.
  intros L M.
  destruct (found_function_decision document s text name L M) as [b [E J]].
  rewrite E. clear E. destruct b.
  - split; split.
    + intros _. apply J; reflexivity.
    + reflexivity.
    + discriminate.
    + intros C. exfalso. apply C. apply J; reflexivity.
  - split; split.
    + discriminate.
    + intros C. apply J in C. discriminate.
    + intros _ C. apply J in C. discriminate.
    + reflexivity.
Qed.

Lemma found_function_valid_iff_witness :
  hasValidFormat doc_banner 3 (str "foo") = Some true <->
  3 <= 3 /\ bannerAbove doc_banner 3 (str "foo").
Proof.
  apply (proj1 (found_function_valid_iff doc_banner 3 (str "def foo():") (str "foo")
                  eq_refl eq_refl)).
Defined.

Lemma hasValidFormat_same_lines (d1 d2 : TextDocument) (s : Z) (name : jsString) :
  defAt d1 s ->
  (forall i, s - 3 <= i <= s -> lineAt d1 i = lineAt d2 i) ->
  hasValidFormat d1 s name = hasValidFormat d2 s name.
Proof.
  intros D1 Eq. pose proof D1 as [t4 [L4 S4]].
  pose proof (lineAt_Some_range _ _ _ L4) as R.
  assert (D2 : defAt d2 s).
  { exists t4. split; [rewrite <- (Eq s) by lia; exact L4 | exact S4]. }
  destruct (Z_lt_le_dec s 3) as [Lt | Ge].
  - rewrite !hasValidFormat_below_3 by assumption. reflexivity.
  - destruct (lineAt_in_range d1 (s - 3)) as [t1 L1]; [lia|].
    destruct (lineAt_in_range d1 (s - 2)) as [t2 L2]; [lia|].
    destruct (lineAt_in_range d1 (s - 1)) as [t3 L3]; [lia|].
    rewrite (hasValidFormat_at_def d1 s name t1 t2 t3 t4) by assumption.
    rewrite (hasValidFormat_at_def d2 s name t1 t2 t3 t4); try assumption;
      try (rewrite <- Eq by lia; assumption).
    reflexivity.
Qed.

(** ** The result of a scan *)

(** A scan reports nothing exactly when every line that matches the
    definition pattern from its first character has room for the banner
    and the banner in place above it. *)
Theorem scan_clean_iff (document : TextDocument) :
  scan document = Some [] <->
  (forall s text name,
     lineAt document s = Some text -> matchDef text = Some name ->
     3 <= s /\ bannerAbove document s name).
Proof.
  split.
  - intros Sc s text name L M.
    destruct (found_function_decision document s text name L M) as [[|] [V J]];
      [apply J; reflexivity|].
    destruct (scan_reports document s text name L M V) as [ds [Sc' H]].
    assert (ds = []) by congruence. subst ds. contradiction.
  - intros A. destruct (scan_total document) as [ds Sc]. destruct ds as [|d ds];
      [exact Sc|].
    destruct (scan_diagnostic document (d :: ds) d Sc (or_introl eq_refl))
      as [i [s [text [name [_ [_ [_ [L [M [V _]]]]]]]]]].
    destruct (found_function_decision document s text name L M) as [b [V' J]].
    assert (b = false) by congruence. subst b.
    assert (false = true) by (apply J; apply (A s text name L M)). discriminate.
Qed.

Lemma scan_clean_iff_witness :
  scan doc_banner = Some [] /\
  3 <= 3 /\ bannerAbove doc_banner 3 (str "foo").
Proof.
  split; [reflexivity|].
  apply (proj1 (scan_clean_iff doc_banner) eq_refl 3 (str "def foo():") (str "foo"));
    reflexivity.
Defined.

Lemma updateDiagnostics_loop_sorted (document : TextDocument) (n : nat) :
  forall i ds,
    0 <= i -> i + Z.of_nat n = lineCount document ->
    updateDiagnostics_loop document n i [] = Some ds ->
    StronglySorted startsBefore ds /\
    Forall (fun d => exists j, i <= j < lineCount document /\
                     findFunctionStartLine document j = Some (startLine (range d)))
           ds.
Proof.
  induction n as [|n IH]; intros i ds H0 Hn L.
  - simpl in L. inversion L; subst ds. split; constructor.
  - destruct (updateDiagnostics_body_spec document i) as [p [B K]]; [lia|].
    destruct (updateDiagnostics_loop_total document n (i + 1)) as [ds' L']; try lia.
    rewrite (updateDiagnostics_loop_step _ _ _ _ _ B L') in L.
    inversion L; subst ds.
    destruct (IH (i + 1) ds' ltac:(lia) ltac:(lia) L') as [St Fa].
    assert (Fa' : Forall (fun d => exists j, i <= j < lineCount document /\
                     findFunctionStartLine document j = Some (startLine (range d)))
                         ds').
    { apply (Forall_impl _ (P := fun d => exists j, i + 1 <= j < lineCount document /\
                     findFunctionStartLine document j = Some (startLine (range d))));
        [|exact Fa].
      intros d [j [Hj E]]. exists j. split; [lia | exact E]. }
    destruct K as [-> | [r [text [name [F [Hr [_ [_ [_ ->]]]]]]]]].
    + split; assumption.
    + cbn [app]. split.
      * constructor; [exact St|]. apply (Forall_impl _ (P := fun d =>
          exists j, i + 1 <= j < lineCount document /\
            findFunctionStartLine document j = Some (startLine (range d))));
          [|exact Fa].
        intros d [j [Hj E]]. unfold startsBefore. cbn [formatDiagnostic range startLine].
        apply (findFunctionStartLine_mono document i j r _); try lia; assumption.
      * constructor; [|exact Fa']. exists i. split; [lia | exact F].
Qed.

(** The diagnostics of a scan come in the order of their start lines, so
    the repeated reports of one definition are next to each other. *)
Theorem scan_sorted (document : TextDocument) (ds : list Diagnostic) :
  scan document = Some ds -> StronglySorted startsBefore ds.
Proof.
  intros Sc.
  apply (updateDiagnostics_loop_sorted document
           (Z.to_nat (lineCount document)) 0 ds); try lia.
  - unfold lineCount; lia.
  - exact Sc.
Qed.

Lemma scan_sorted_witness :
  StronglySorted startsBefore
    [formatDiagnostic 2 (str "def foo():") (str "foo");
     formatDiagnostic 2 (str "def foo():") (str "foo");
     formatDiagnostic 2 (str "def foo():") (str "foo")].
Proof.
  apply (scan_sorted doc_decorated). reflexivity.
Defined.

(** ** The quick fix outside the scan *)

(** The fix of a diagnostic raises exactly when the diagnostic's line is
    not a line of the document (a diagnostic that outlived the lines it
    was about); otherwise it yields no insertion, when the line it
    resolves to does not match the definition pattern, or the two
    insertions at the first column. *)
Theorem fixDiagnostic_spec (document : TextDocument) (d : Diagnostic) :
  (fixDiagnostic document d = None <->
   ~ (0 <= startLine (range d) < lineCount document)) /\
  (forall edits, fixDiagnostic document d = Some edits ->
     (edits = [] /\
      exists s text, findFunctionStartLine document (startLine (range d)) = Some s /\
                     lineAt document s = Some text /\ matchDef text = None) \/
     (exists s e text name,
        findFunctionStartLine document (startLine (range d)) = Some s /\
        lineAt document s = Some text /\ matchDef text = Some name /\
        findEndOfFunction document (startLine (range d)) = Some e /\
        edits = [mkInsert s 0 (openingText name);
                 mkInsert (e + 1) 0 (closingText name)])).
Proof.
  set (l := startLine (range d)). unfold fixDiagnostic. fold l.
  destruct (Z_lt_le_dec l 0) as [Neg | H0].
  { rewrite (findFunctionStartLine_negative _ _ Neg). cbn [bind].
    split; [split; [intros _; lia | reflexivity] | discriminate]. }
  destruct (Z_lt_le_dec l (lineCount document)) as [Lt | Ge].
  - destruct (findFunctionStartLine_total document l H0) as [s [E [Hs K]]].
    assert (Rs : 0 <= s < lineCount document) by (destruct K as [-> | [K _]]; lia).
    destruct (lineAt_in_range document s Rs) as [text L].
    destruct (findEndOfFunction_total document l) as [e [Fe Re]]; [lia|].
    rewrite E. cbn [bind]. rewrite L. cbn [bind].
    destruct (matchDef text) as [name|] eqn:M.
    + rewrite Fe. cbn [bind]. split; [split; [discriminate | intros C; lia]|].
      intros edits Eq. inversion Eq; subst edits. right.
      exists s, e, text, name. repeat split; assumption.
    + split; [split; [discriminate | intros C; lia]|].
      intros edits Eq. inversion Eq; subst edits. left.
      split; [reflexivity|]. exists s, text. repeat split; assumption.
  - rewrite (findFunctionStartLine_past_end _ _ Ge). cbn [bind].
    assert (L : lineAt document l = None).
    { destruct (lineAt document l) as [t|] eqn:L; [|reflexivity].
      apply lineAt_Some_range in L. lia. }
    rewrite L. cbn [bind].
    split; [split; [intros _; lia | reflexivity] | discriminate].
Qed.

Lemma fixDiagnostic_spec_witness :
  fixDiagnostic doc_foo (formatDiagnostic 2 (str "def foo():") (str "foo")) = None.
Proof.
  apply (proj1 (fixDiagnostic_spec doc_foo
                  (formatDiagnostic 2 (str "def foo():") (str "foo")))).
  cbn [formatDiagnostic range startLine]. change (lineCount doc_foo) with 2. lia.
Defined.

(** The fix of a definition that starts its line. *)
Lemma fixDiagnostic_of_def (document : TextDocument) (s : Z) (text name : jsString) :
  lineAt document s = Some text -> matchDef text = Some name ->
  exists e, findEndOfFunction document s = Some e /\
            s <= e < lineCount document /\
            fixDiagnostic document (formatDiagnostic s text name)
            = Some [mkInsert s 0 (openingText name);
                    mkInsert (e + 1) 0 (closingText name)].
Proof.
  intros L M. pose proof (lineAt_Some_range _ _ _ L) as R.
  destruct (findEndOfFunction_total document s R) as [e [Fe Re]].
  exists e. split; [exact Fe|]. split; [exact Re|].
  assert (D : defAt document s)
    by (exists text; split; [exact L | apply (matchDef_trim _ _ M)]).
  unfold fixDiagnostic. cbn [formatDiagnostic range startLine].
  rewrite (findFunctionStartLine_at_def _ _ D). cbn [bind]. rewrite L. cbn [bind].
  rewrite M, Fe. reflexivity.
Qed.

Lemma forEachDiagnostic_of_defs (document : TextDocument) (l : list Diagnostic) :
  (forall d, In d l ->
     exists s text name, lineAt document s = Some text /\
                         matchDef text = Some name /\
                         d = formatDiagnostic s text name) ->
  exists edits, forEachDiagnostic document l = Some edits /\
                List.length edits = (2 * List.length l)%nat /\
                Forall (fixPosition document) edits.
Proof.
  induction l as [|d l IH]; intros H.
  - exists []. split; [reflexivity|]. split; [reflexivity | constructor].
  - destruct (H d (or_introl eq_refl)) as [s [text [name [L [M ->]]]]].
    destruct (fixDiagnostic_of_def document s text name L M) as [e [_ [Re Fx]]].
    destruct IH as [more [Fm [Len Fa]]]; [intros d' H'; apply H; right; exact H'|].
    cbn [forEachDiagnostic]. rewrite Fx. cbn [bind]. rewrite Fm. cbn [bind].
    eexists. split; [reflexivity|]. split.
    + cbn [app List.length]. rewrite Len. lia.
    + pose proof (lineAt_Some_range _ _ _ L) as R.
      cbn [app]. repeat constructor; cbn [editCharacter editLine]; try lia. exact Fa.
Qed.

(** [provideCodeActions] answers [undefined] exactly when no diagnostic
    of the context carries the code [functionFormat]; handed the
    diagnostics of a scan it never raises and never filters any out, and
    its quick fix holds two insertions for every diagnostic, repeated
    reports of one definition included, each at the first column of a
    line of the document or of the line after the last. *)
Theorem provideCodeActions_spec (document : TextDocument) :
  (forall context,
     provideCodeActions document context = Some None <->
     forall d, In d context -> code d <> "functionFormat"%string) /\
  (provideCodeActions document [] = Some None) /\
  (forall ds, scan document = Some ds -> ds <> [] ->
     exists edits, provideCodeActions document ds = Some (Some edits) /\
                   List.length edits = (2 * List.length ds)%nat /\
                   Forall (fixPosition document) edits).
Proof.
  split; [|split; [reflexivity|]].
  - intros context. unfold provideCodeActions.
    set (f := fun d => String.eqb (code d) "functionFormat").
    destruct (filter f context) as [|d0 l] eqn:F.
    + split; [|reflexivity]. intros _ d H E.
      assert (In d (filter f context)) as K.
      { apply filter_In. split; [exact H|]. unfold f. rewrite E. reflexivity. }
      rewrite F in K. contradiction.
    + split.
      * destruct (forEachDiagnostic document (d0 :: l)); discriminate.
      * intros A. exfalso.
        assert (In d0 (filter f context)) as K by (rewrite F; left; reflexivity).
        apply filter_In in K. destruct K as [K1 K2]. unfold f in K2.
        apply String.eqb_eq in K2. apply (A d0 K1 K2).
  - intros ds Sc Ne. unfold provideCodeActions.
    assert (A : forall d, In d ds ->
                exists s text name, lineAt document s = Some text /\
                                    matchDef text = Some name /\
                                    d = formatDiagnostic s text name).
    { intros d H.
      destruct (scan_diagnostic document ds d Sc H)
        as [i [s [text [name [_ [_ [_ [L [M [_ E]]]]]]]]]].
      exists s, text, name. auto. }
    assert (F : filter (fun d => String.eqb (code d) "functionFormat") ds = ds).
    { apply forallb_filter_id. apply forallb_forall. intros d H.
      destruct (A d H) as [s [text [name [_ [_ ->]]]]]. reflexivity. }
    rewrite F. destruct (forEachDiagnostic_of_defs document ds A) as [edits [Fe [Len Fa]]].
    destruct ds as [|d ds]; [contradiction|].
    rewrite Fe. cbn [bind]. exists edits. auto.
Qed.

Lemma provideCodeActions_spec_witness :
  exists edits,
    provideCodeActions doc_decorated
      [formatDiagnostic 2 (str "def foo():") (str "foo");
       formatDiagnostic 2 (str "def foo():") (str "foo");
       formatDiagnostic 2 (str "def foo():") (str "foo")] = Some (Some edits) /\
    List.length edits = (2 * 3)%nat /\
    Forall (fixPosition doc_decorated) edits.
Proof.
  apply (proj2 (proj2 (provideCodeActions_spec doc_decorated))).
  - reflexivity.
  - discriminate.
Defined.

(** ** The document after a fix *)

Lemma skipn_nth_error (ls : list jsString) (n : nat) (text : jsString) :
  nth_error ls n = Some text -> skipn n ls = text :: skipn (S n) ls.
Proof.
  intros E. apply (app_inv_head (firstn n ls)).
  rewrite firstn_skipn. symmetry. apply firstn_skipn_middle; exact E.
Qed.

Lemma insertAt_closing (ls : list jsString) (l : nat) (name : jsString) :
  forallb isWordChar name = true -> ls <> [] ->
  insertAt ls (mkInsert (Z.of_nat l) 0 (closingText name))
  = firstn l ls ++ closingLines (Nat.ltb l (List.length ls)) name ++ skipn l ls.
Proof.
  intros W Ne. unfold insertAt. cbn [editLine editCharacter newText].
  rewrite Nat2Z.id. destruct (List.length ls) as [|m] eqn:Len;
    [destruct ls; [contradiction | discriminate]|].
  unfold splice. rewrite (splitLines_closingText name W).
  cbn [removelast last app]. destruct (Nat.ltb l (S m)) eqn:C; unfold closingLines.
  - apply Nat.ltb_lt in C.
    assert (E : nth_error ls l = Some (nth l ls [])) by (apply nth_error_nth'; lia).
    rewrite (skipn_nth_error ls l _ E). cbn [app]. reflexivity.
  - apply Nat.ltb_ge in C.
    assert (E : nth_error ls m = Some (nth m ls [])) by (apply nth_error_nth'; lia).
    rewrite (@firstn_all2 _ l ls) by lia. rewrite (@skipn_all2 _ l ls) by lia.
    rewrite !app_nil_r.
    assert (K : ls = firstn m ls ++ [nth m ls []]).
    { rewrite <- (firstn_skipn_middle m ls E) at 1.
      rewrite (@skipn_all2 _ (S m) ls) by lia. reflexivity. }
    set (a := firstn m ls) in *. set (x := nth m ls []) in *.
    rewrite K. rewrite <- app_assoc. reflexivity.
Qed.

(** The document after the fix of a definition that starts its line:
    the lines above the definition, the three banner lines, the lines of
    the block, the two lines of the closing text and the lines after the
    block. *)
Lemma applyEdits_fix_lines (document : TextDocument) (s e : Z) (text name : jsString) :
  lineAt document s = Some text ->
  forallb isWordChar name = true ->
  s <= e < lineCount document ->
  lines (applyEdits document
           [mkInsert s 0 (openingText name); mkInsert (e + 1) 0 (closingText name)])
  = firstn (Z.to_nat s) (lines document)
      ++ [topComment; functionComment name; topComment]
      ++ skipn (Z.to_nat s) (firstn (Z.to_nat (e + 1)) (lines document))
      ++ closingLines (e + 1 <? lineCount document) name
      ++ skipn (Z.to_nat (e + 1)) (lines document).
Proof.
  intros L W He. pose proof (lineAt_Some_range _ _ _ L) as R.
  pose proof (lineAt_Some_nth_error _ _ _ L) as E.
  unfold applyEdits, lineCount in *. cbn [lines fold_right].
  set (ls := lines document) in *. set (n := Z.to_nat s) in *.
  set (l := Z.to_nat (e + 1)).
  assert (Ne : ls <> []) by (intros K; rewrite K in R; simpl in R; lia).
  replace (e + 1) with (Z.of_nat l) at 1 by lia.
  rewrite (insertAt_closing ls l name W Ne).
  replace (Nat.ltb l (List.length ls)) with (e + 1 <? Z.of_nat (List.length ls)).
  2:{ destruct (e + 1 <? Z.of_nat (List.length ls)) eqn:C; symmetry.
      - apply Nat.ltb_lt. apply Z.ltb_lt in C. lia.
      - apply Nat.ltb_ge. apply Z.ltb_ge in C. lia. }
  set (cl := closingLines (e + 1 <? Z.of_nat (List.length ls)) name).
  set (ls1 := firstn l ls ++ cl ++ skipn l ls).
  assert (Lf : List.length (firstn l ls) = l) by (rewrite length_firstn; lia).
  assert (E1 : nth_error ls1 n = Some text).
  { unfold ls1. rewrite nth_error_app1 by lia.
    pose proof (nth_error_firstn l ls n) as A.
    replace (Nat.ltb n l) with true in A by (symmetry; apply Nat.ltb_lt; lia).
    rewrite A. exact E. }
  replace s with (Z.of_nat n) at 1 by lia.
  rewrite (insertAt_opening ls1 n text name W E1).
  assert (P : firstn n ls1 = firstn n ls).
  { unfold ls1. rewrite firstn_app, firstn_firstn.
    replace (Nat.min n l) with n by lia.
    replace (n - List.length (firstn l ls))%nat with O by lia.
    cbn [firstn]. apply app_nil_r. }
  assert (Q : skipn n ls1 = skipn n (firstn l ls) ++ cl ++ skipn l ls).
  { unfold ls1. rewrite skipn_app.
    replace (n - List.length (firstn l ls))%nat with O by lia. reflexivity. }
  rewrite P.
  change ([topComment; functionComment name; topComment; text] ++ skipn (S n) ls1)
    with ([topComment; functionComment name; topComment] ++ text :: skipn (S n) ls1).
  rewrite <- (skipn_nth_error ls1 n text E1), Q. reflexivity.
Qed.

(** The fix of a diagnostic of a scan only adds lines: the document
    after it is the document before it with the three banner lines put in
    above the definition and the two lines of the closing text put in
    after the block, five lines more and no line changed or lost. *)
Theorem fix_only_adds_lines (document : TextDocument) (ds : list Diagnostic)
    (d : Diagnostic) :
  scan document = Some ds -> In d ds ->
  exists name e edits,
    findEndOfFunction document (startLine (range d)) = Some e /\
    fixDiagnostic document d = Some edits /\
    lines (applyEdits document edits)
    = firstn (Z.to_nat (startLine (range d))) (lines document)
        ++ [topComment; functionComment name; topComment]
        ++ skipn (Z.to_nat (startLine (range d)))
             (firstn (Z.to_nat (e + 1)) (lines document))
        ++ closingLines (e + 1 <? lineCount document) name
        ++ skipn (Z.to_nat (e + 1)) (lines document) /\
    lineCount (applyEdits document edits) = lineCount document + 5.
Proof.
  intros Sc H.
  destruct (scan_diagnostic document ds d Sc H)
    as [i [s [text [name [_ [_ [_ [L [M [_ ->]]]]]]]]]].
  cbn [formatDiagnostic range startLine].
  destruct (fixDiagnostic_of_def document s text name L M) as [e [Fe [Re Fx]]].
  destruct (matchDef_Some _ _ M) as [q [c [tl [_ [_ [W _]]]]]].
  pose proof (applyEdits_fix_lines document s e text name L W Re) as Sh.
  exists name, e,
    [mkInsert s 0 (openingText name); mkInsert (e + 1) 0 (closingText name)].
  split; [exact Fe|]. split; [exact Fx|]. split; [exact Sh|].
  pose proof (lineAt_Some_range _ _ _ L) as R.
  unfold lineCount in *. rewrite Sh. rewrite !length_app, length_skipn, !length_firstn.
  rewrite length_skipn.
  assert (K : List.length (closingLines (e + 1 <? Z.of_nat (List.length (lines document)))
                             name) = 2%nat)
    by (unfold closingLines; destruct (e + 1 <? _); reflexivity).
  rewrite K. cbn [List.length]. lia.
Qed.

Lemma fix_only_adds_lines_witness :
  exists name e edits,
    findEndOfFunction doc_two 0 = Some e /\
    fixDiagnostic doc_two (formatDiagnostic 0 (str "def a():") (str "a"))
      = Some edits /\
    lines (applyEdits doc_two edits)
    = firstn (Z.to_nat 0) (lines doc_two)
        ++ [topComment; functionComment name; topComment]
        ++ skipn (Z.to_nat 0) (firstn (Z.to_nat (e + 1)) (lines doc_two))
        ++ closingLines (e + 1 <? lineCount doc_two) name
        ++ skipn (Z.to_nat (e + 1)) (lines doc_two) /\
    lineCount (applyEdits doc_two edits) = lineCount doc_two + 5.
Proof.
  apply (fix_only_adds_lines doc_two
           [formatDiagnostic 0 (str "def a():") (str "a")]
           (formatDiagnostic 0 (str "def a():") (str "a"))).
  - reflexivity.
  - left. reflexivity.
Defined.

Lemma trim_bottomComment (name : jsString) :
  trim (bottomComment name) = bottomComment name.
Proof.
  unfold bottomComment.
  change (str "# |-------------------------End of ")
    with (35%N :: str " |-------------------------End of ").
  change (str " ------------------------------|")
    with (str " ------------------------------" ++ [124%N]).
  rewrite <- app_comm_cons, !app_assoc.
  rewrite <- (app_assoc _ name).
  apply trim_fixed; reflexivity.
Qed.

Lemma bottomComment_not_topComment (name : jsString) :
  bottomComment name <> topComment.
Proof.
  intros E. apply (f_equal (firstn 29)) in E. unfold bottomComment in E.
  vm_compute in E. discriminate E.
Qed.

Lemma lineAt_pair (document : TextDocument) (pre rest : list jsString)
    (x y : jsString) :
  lines document = pre ++ [x; y] ++ rest ->
  lineAt document (Z.of_nat (List.length pre)) = Some x /\
  lineAt document (Z.of_nat (List.length pre) + 1) = Some y.
Proof.
  intros E. split.
  - apply lineAt_nth_error. rewrite E, nth_error_app2 by lia.
    rewrite Nat.sub_diag. reflexivity.
  - replace (Z.of_nat (List.length pre) + 1) with (Z.of_nat (S (List.length pre)))
      by lia.
    apply lineAt_nth_error. rewrite E, nth_error_app2 by lia.
    replace (S (List.length pre) - List.length pre)%nat with 1%nat by lia. reflexivity.
Qed.

(** The closing text of a fix in front of a definition line that ends
    the block. *)
Lemma closing_text_before_def (document : TextDocument) (ds : list Diagnostic)
    (d : Diagnostic) (e : Z) :
  scan document = Some ds -> In d ds ->
  findEndOfFunction document (startLine (range d)) = Some e ->
  defAt document (e + 1) ->
  exists edits name,
    fixDiagnostic document d = Some edits /\
    lineAt (applyEdits document edits) (e + 6) = lineAt document (e + 1) /\
    lineAt (applyEdits document edits) (e + 5) = Some (bottomComment name) /\
    forall name', hasValidFormat (applyEdits document edits) (e + 6) name'
                  = Some false.
Proof.
  intros Sc H Fe D.
  destruct (scan_diagnostic document ds d Sc H)
    as [i [s [text [name [_ [_ [_ [L [M [_ ->]]]]]]]]]].
  cbn [formatDiagnostic range startLine] in Fe.
  destruct (fixDiagnostic_of_def document s text name L M) as [e' [Fe' [Re Fx]]].
  assert (e' = e) by congruence. subst e'.
  destruct (matchDef_Some _ _ M) as [q [c [tl [_ [_ [W _]]]]]].
  pose proof (applyEdits_fix_lines document s e text name L W Re) as Sh.
  set (edits := [mkInsert s 0 (openingText name);
                 mkInsert (e + 1) 0 (closingText name)]) in *.
  exists edits, name. split; [exact Fx|].
  destruct D as [text2 [L2 D2]]. pose proof (lineAt_Some_range _ _ _ L2) as R2.
  pose proof (lineAt_Some_range _ _ _ L) as R.
  pose proof (lineAt_Some_nth_error _ _ _ L2) as E2.
  replace (e + 1 <? lineCount document) with true in Sh
    by (symmetry; apply Z.ltb_lt; lia).
  rewrite (skipn_nth_error _ _ _ E2) in Sh. unfold closingLines in Sh.
  set (pre := firstn (Z.to_nat s) (lines document)
                ++ [topComment; functionComment name; topComment]
                ++ skipn (Z.to_nat s) (firstn (Z.to_nat (e + 1)) (lines document))
                ++ [[]]).
  assert (Sh' : lines (applyEdits document edits)
                = pre ++ [bottomComment name; text2]
                    ++ skipn (S (Z.to_nat (e + 1))) (lines document)).
  { rewrite Sh. unfold pre. rewrite <- !app_assoc. reflexivity. }
  assert (Lp : Z.of_nat (List.length pre) = e + 5).
  { unfold pre. rewrite !length_app, length_skipn, !length_firstn.
    unfold lineCount in *. cbn [List.length]. lia. }
  destruct (lineAt_pair _ _ _ _ _ Sh') as [Lb Lt]. rewrite Lp in Lb, Lt.
  replace (e + 5 + 1) with (e + 6) in Lt by lia.
  split; [congruence|]. split; [exact Lb|]. intros name'.
  assert (D' : defAt (applyEdits document edits) (e + 6)) by (exists text2; auto).
  destruct (hasValidFormat_decision _ _ name' D') as [b [V I]].
  rewrite V. destruct b; [|reflexivity]. exfalso.
  destruct (proj1 I eq_refl) as [_ [[_ [_ [t [Lt' T]]]] _]].
  replace (e + 6 - 1) with (e + 5) in Lt' by lia.
  assert (t = bottomComment name) by congruence. subst t.
  rewrite trim_bottomComment in T. exact (bottomComment_not_topComment name T).
Qed.

Lemma matchDef_indentation (text name : jsString) :
  matchDef text = Some name -> firstNonWhitespaceCharacterIndex text = 0.
Proof.
  intros M. destruct (matchDef_Some _ _ M) as [q [c [rest [_ [-> _]]]]].
  unfold firstNonWhitespaceCharacterIndex, trimStart.
  change (str "def " ++ name ++ rest) with (100%N :: [101; 102; 32]%N ++ name ++ rest).
  rewrite dropWhile_stop by reflexivity. lia.
Qed.

(** The fix of a reported definition spoils the next definition of the
    document: the block of the reported one runs up to the line before
    the next definition line, so the closing text lands between that
    definition and whatever stands above it; after the fix the next
    definition, five lines further down, has the closing banner of the
    fixed function directly above it and fails [hasValidFormat] for every
    name, also when it passed before. *)
Theorem fix_breaks_next_function (document : TextDocument) (ds : list Diagnostic)
    (d : Diagnostic) (t : Z) :
  scan document = Some ds -> In d ds ->
  startLine (range d) < t -> defAt document t ->
  (forall j, startLine (range d) < j < t -> ~ defAt document j) ->
  exists edits name,
    fixDiagnostic document d = Some edits /\
    lineAt (applyEdits document edits) (t + 5) = lineAt document t /\
    lineAt (applyEdits document edits) (t + 4) = Some (bottomComment name) /\
    forall name', hasValidFormat (applyEdits document edits) (t + 5) name'
                  = Some false.
Proof.
  intros Sc H Ht D N.
  destruct (scan_diagnostic document ds d Sc H)
    as [i [s [text [name [_ [_ [_ [L [M [_ E]]]]]]]]]].
  assert (Fe : findEndOfFunction document (startLine (range d)) = Some (t - 1)).
  { subst d. cbn [formatDiagnostic range startLine] in *.
    apply (findEndOfFunction_before_next_def document s t text); try assumption.
    apply (matchDef_indentation _ _ M). }
  destruct (closing_text_before_def document ds d (t - 1) Sc H Fe)
    as [edits [name' [Fx [A [B C]]]]].
  - replace (t - 1 + 1) with t by lia. exact D.
  - exists edits, name'. split; [exact Fx|].
    replace (t - 1 + 6) with (t + 5) in * by lia.
    replace (t - 1 + 5) with (t + 4) in * by lia.
    replace (t - 1 + 1) with t in * by lia. auto.
Qed.

Lemma fix_breaks_next_function_witness :
  hasValidFormat doc_two 5 (str "b") = Some true /\
  exists edits name,
    fixDiagnostic doc_two (formatDiagnostic 0 (str "def a():") (str "a"))
      = Some edits /\
    lineAt (applyEdits doc_two edits) (5 + 5) = lineAt doc_two 5 /\
    lineAt (applyEdits doc_two edits) (5 + 4) = Some (bottomComment name) /\
    forall name', hasValidFormat (applyEdits doc_two edits) (5 + 5) name'
                  = Some false.
Proof.
  split; [reflexivity|].
  apply (fix_breaks_next_function doc_two
           [formatDiagnostic 0 (str "def a():") (str "a")]
           (formatDiagnostic 0 (str "def a():") (str "a")) 5).
  - reflexivity.
  - left. reflexivity.
  - cbn [formatDiagnostic range startLine]. lia.
  - exists (str "def b():"). split; reflexivity.
  - cbn [formatDiagnostic range startLine]. intros j Hj [x [Lx Dx]].
    assert (K : j = 1 \/ j = 2 \/ j = 3 \/ j = 4) by lia.
    destruct K as [-> | [-> | [-> | ->]]]; vm_compute in Lx; inversion Lx; subst x;
      discriminate Dx.
Defined.

(** ** How many times a definition is reported *)

Section Multiplicity.

Variable document : TextDocument.
Variables (s k : Z) (text name : jsString).
Hypothesis line : lineAt document s = Some text.
Hypothesis found : matchDef text = Some name.
Hypothesis invalid : hasValidFormat document s name = Some false.
Hypothesis run : 0 <= k <= s.
Hypothesis skipped : forall j, s - k <= j < s -> skippedAt document j.
Hypothesis stop : s - k = 0 \/ ~ skippedAt document (s - k - 1).

Lemma resolves_in_run (i : Z) :
  s - k <= i <= s -> findFunctionStartLine document i = Some s.
Proof.
  intros H. apply findFunctionStartLine_first_def; try lia.
  - exists text. split; [exact line | apply (matchDef_trim _ _ found)].
  - intros j Hj. apply skipped. lia.
Qed.

Lemma resolves_elsewhere (i : Z) :
  0 <= i -> ~ (s - k <= i <= s) -> findFunctionStartLine document i <> Some s.
Proof.
  intros H0 Out E.
  destruct (findFunctionStartLine_sound document i s H0 E) as [-> | [Hs [_ Sk]]];
    [lia|].
  destruct stop as [Z0 | NS]; [lia|]. apply NS. apply Sk. lia.
Qed.

Lemma updateDiagnostics_loop_multiplicity (n : nat) : forall i ds,
  0 <= i -> i + Z.of_nat n = lineCount document ->
  updateDiagnostics_loop document n i [] = Some ds ->
  Z.of_nat (List.length (filter (startsAt s) ds))
  = Z.max 0 (Z.min (s - i + 1) (k + 1)).
Proof.
  induction n as [|n IH]; intros i ds H0 Hn L.
  - simpl in L. inversion L; subst ds. apply lineAt_Some_range in line.
    cbn [filter List.length]. lia.
  - destruct (updateDiagnostics_body_spec document i) as [p [B _]]; [lia|].
    destruct (updateDiagnostics_loop_total document n (i + 1)) as [ds' L']; try lia.
    rewrite (updateDiagnostics_loop_step _ _ _ _ _ B L') in L.
    inversion L; subst ds. rewrite filter_app, length_app, Nat2Z.inj_add.
    rewrite (IH (i + 1) ds' ltac:(lia) ltac:(lia) L').
    destruct (Z_le_dec (s - k) i) as [Lo | Lo]; [destruct (Z_le_dec i s) as [Hi | Hi]|].
    + assert (B' : updateDiagnostics_body document i
                   = Some [formatDiagnostic s text name])
        by (apply (updateDiagnostics_body_invalid document i s text
                     (resolves_in_run i (conj Lo Hi)) line name found invalid)).
      assert (p = [formatDiagnostic s text name]) by congruence. subst p.
      cbn [filter]. unfold startsAt at 1. cbn [formatDiagnostic range startLine].
      rewrite Z.eqb_refl. cbn [List.length]. lia.
    + rewrite (updateDiagnostics_body_at document s i p) by
        (try lia; try exact B; apply resolves_elsewhere; lia).
      cbn [List.length]. lia.
    + rewrite (updateDiagnostics_body_at document s i p) by
        (try lia; try exact B; apply resolves_elsewhere; lia).
      cbn [List.length]. lia.
Qed.

End Multiplicity.

(** A definition at the start of its line that fails the check is
    reported once for itself and once more for every line of the
    unbroken run of blank and decorator lines directly above it: with
    [k] such lines the scan holds exactly [k + 1] diagnostics on its
    line. *)
Theorem scan_multiplicity (document : TextDocument) (ds : list Diagnostic)
    (s k : Z) (text name : jsString) :
  scan document = Some ds ->
  lineAt document s = Some text -> matchDef text = Some name ->
  hasValidFormat document s name = Some false ->
  0 <= k <= s ->
  (forall j, s - k <= j < s -> skippedAt document j) ->
  (s - k = 0 \/ ~ skippedAt document (s - k - 1)) ->
  Z.of_nat (List.length (filter (startsAt s) ds)) = k + 1.
Proof.
  intros Sc L M V R Sk St.
  pose proof (updateDiagnostics_loop_multiplicity document s k text name
                L M V R Sk St (Z.to_nat (lineCount document)) 0 ds) as C.
  unfold scan in Sc. unfold lineCount in *.
  specialize (C ltac:(lia) ltac:(lia) Sc). lia.
Qed.

Lemma scan_multiplicity_witness :
  Z.of_nat (List.length (filter (startsAt 3)
     [formatDiagnostic 3 (str "def foo():") (str "foo");
      formatDiagnostic 3 (str "def foo():") (str "foo")])) = 1 + 1.
Proof.
  apply (scan_multiplicity doc_blank_above _ 3 1 (str "def foo():") (str "foo")).
  - reflexivity.
  - reflexivity.
  - reflexivity.
  - reflexivity.
  - lia.
  - intros j Hj. assert (j = 2) by lia. subst j.
    exists []. split; [reflexivity | left; reflexivity].
  - right. intros [t [L K]]. vm_compute in L. inversion L; subst t.
    destruct K as [K | K]; vm_compute in K; discriminate K.
Defined.

(** ** The definition pattern, both ways *)

Lemma takeWhile_app_stop (p : N -> bool) (a rest : jsString) :
  forallb p a = true ->
  (rest = [] \/ exists c r, rest = c :: r /\ p c = false) ->
  takeWhile p (a ++ rest) = a.
Proof.
  intros A R. induction a as [|x a IH].
  - destruct R as [-> | [c [r [-> C]]]]; [reflexivity|]. simpl. rewrite C. reflexivity.
  - simpl in A. apply andb_true_iff in A. destruct A as [Ax Aa].
    simpl. rewrite Ax. f_equal. exact (IH Aa).
Qed.

Lemma dropWhile_head (p : N -> bool) (s : jsString) :
  dropWhile p s = [] \/ exists c r, dropWhile p s = c :: r /\ p c = false.
Proof.
  induction s as [|x s IH]; [left; reflexivity|].
  simpl. destruct (p x) eqn:E; [exact IH|]. right. exists x, s. auto.
Qed.

(** [/^def (\w+)/] matches a line exactly when the line is ["def "], a
    non-empty run of word characters and a rest that does not go on with
    a word character; the capture is that whole run, so the name of a
    diagnostic is never a proper prefix of the identifier. *)
Theorem matchDef_spec (text name : jsString) :
  matchDef text = Some name <->
  name <> [] /\ forallb isWordChar name = true /\
  exists rest, text = str "def " ++ name ++ rest /\
               (rest = [] \/ exists c r, rest = c :: r /\ isWordChar c = false).
Proof.
  split.
  - intros M. destruct (matchDef_Some _ _ M) as [q [c [_ [Eq [_ [W _]]]]]].
    split; [subst name; destruct q; discriminate|]. split; [exact W|].
    unfold matchDef in M.
    destruct (startsWith text (str "def ")) eqn:P; [|discriminate].
    apply startsWith_true in P. destruct P as [r ->].
    change (skipn 4 (str "def " ++ r)) with r in M.
    destruct (takeWhile isWordChar r) as [|x w] eqn:T; [discriminate|].
    inversion M; subst name.
    exists (dropWhile isWordChar r). split.
    + rewrite <- T. f_equal. apply takeWhile_dropWhile.
    + apply dropWhile_head.
  - intros [Ne [W [rest [-> R]]]]. unfold matchDef.
    rewrite startsWith_app. change (skipn 4 (str "def " ++ name ++ rest))
      with (name ++ rest).
    rewrite (takeWhile_app_stop _ _ _ W R).
    destruct name; [contradiction | reflexivity].
Qed.

Lemma matchDef_spec_witness :
  str "foo" <> [] /\ forallb isWordChar (str "foo") = true /\
  exists rest, str "def foo():" = str "def " ++ str "foo" ++ rest /\
               (rest = [] \/ exists c r, rest = c :: r /\ isWordChar c = false).
Proof.
  apply (proj1 (matchDef_spec (str "def foo():") (str "foo"))). reflexivity.
Defined.

(** ** The definitions a fix leaves alone *)

Lemma lineAt_negative (document : TextDocument) (i : Z) :
  i < 0 -> lineAt document i = None.
Proof.
  intros H. unfold lineAt.
  replace (i <? 0) with true by (symmetry; apply Z.ltb_lt; exact H). reflexivity.
Qed.

(** The lines of a document from line [l] on, found [c] lines further
    down in another. *)
Lemma lineAt_shifted (d1 d2 : TextDocument) (pre : list jsString) (l : nat) (i : Z) :
  lines d2 = pre ++ skipn l (lines d1) ->
  Z.of_nat l <= i ->
  lineAt d2 (i + (Z.of_nat (List.length pre) - Z.of_nat l)) = lineAt d1 i.
Proof.
  intros E Hi. destruct (lineAt d1 i) as [x|] eqn:L.
  - pose proof (lineAt_Some_range _ _ _ L) as R.
    apply lineAt_Some_nth_error in L.
    replace (i + (Z.of_nat (List.length pre) - Z.of_nat l))
      with (Z.of_nat (List.length pre + (Z.to_nat i - l))) by lia.
    apply lineAt_nth_error. rewrite E, nth_error_app2 by lia.
    replace (List.length pre + (Z.to_nat i - l) - List.length pre)%nat
      with (Z.to_nat i - l)%nat by lia.
    rewrite nth_error_skipn. replace (l + (Z.to_nat i - l))%nat with (Z.to_nat i) by lia.
    exact L.
  - assert (Ge : lineCount d1 <= i).
    { destruct (Z_lt_le_dec i (lineCount d1)) as [Lt | Ge]; [|exact Ge].
      destruct (lineAt_in_range d1 i) as [x Lx]; [lia | congruence]. }
    destruct (lineAt d2 (i + (Z.of_nat (List.length pre) - Z.of_nat l))) as [y|] eqn:L2;
      [|reflexivity].
    apply lineAt_Some_range in L2. unfold lineCount in *.
    rewrite E, length_app, length_skipn in L2. lia.
Qed.

(** Above the banner lines the check reads the same lines further down. *)
Lemma hasValidFormat_shifted (d1 d2 : TextDocument) (s c : Z) (name : jsString) :
  defAt d1 s -> 3 <= s -> 0 <= c ->
  (forall i, s - 3 <= i <= s -> lineAt d2 (i + c) = lineAt d1 i) ->
  hasValidFormat d2 (s + c) name = hasValidFormat d1 s name.
Proof.
  intros D1 H3 Hc Eq. pose proof D1 as [t4 [L4 S4]].
  pose proof (lineAt_Some_range _ _ _ L4) as R.
  assert (D2 : defAt d2 (s + c)).
  { exists t4. split; [rewrite (Eq s) by lia; exact L4 | exact S4]. }
  destruct (lineAt_in_range d1 (s - 3)) as [t1 L1]; [lia|].
  destruct (lineAt_in_range d1 (s - 2)) as [t2 L2]; [lia|].
  destruct (lineAt_in_range d1 (s - 1)) as [t3 L3]; [lia|].
  rewrite (hasValidFormat_at_def d1 s name t1 t2 t3 t4) by assumption.
  rewrite (hasValidFormat_at_def d2 (s + c) name t1 t2 t3 t4); try assumption;
    try lia.
  - reflexivity.
  - replace (s + c - 3) with (s - 3 + c) by lia. rewrite Eq by lia. exact L1.
  - replace (s + c - 2) with (s - 2 + c) by lia. rewrite Eq by lia. exact L2.
  - replace (s + c - 1) with (s - 1 + c) by lia. rewrite Eq by lia. exact L3.
  - rewrite Eq by lia. exact L4.
Qed.

(** [hasValidFormat] on a definition line looks at that line and the
    three lines above it and at nothing else: two documents that agree on
    these four lines agree on the result, whatever the body of the
    function and the rest of the documents are; and with room for the
    banner the result is the same when the four lines stand [c] lines
    further down in the other document. *)
Theorem hasValidFormat_local (d1 d2 : TextDocument) (s : Z) (name : jsString) :
  defAt d1 s ->
  ((forall i, s - 3 <= i <= s -> lineAt d1 i = lineAt d2 i) ->
   hasValidFormat d1 s name = hasValidFormat d2 s name) /\
  (forall c, 3 <= s -> 0 <= c ->
     (forall i, s - 3 <= i <= s -> lineAt d2 (i + c) = lineAt d1 i) ->
     hasValidFormat d2 (s + c) name = hasValidFormat d1 s name).
Proof.
  intros D. split.
  - intros Eq. apply hasValidFormat_same_lines; assumption.
  - intros c H3 Hc Eq. apply hasValidFormat_shifted; assumption.
Qed.

Lemma hasValidFormat_local_witness :
  hasValidFormat doc_banner 3 (str "foo")
  = hasValidFormat
      (py ["# |-----------------------------------------------------------------------------|";
           "# foo";
           "# |-----------------------------------------------------------------------------|";
           "def foo():";
           "    x = 2"; "    return x"; ""; "y = foo()"]%string)
      3 (str "foo").
Proof.
  apply (hasValidFormat_local doc_banner).
  - exists (str "def foo():"). split; reflexivity.
  - intros i Hi. assert (K : i = 0 \/ i = 1 \/ i = 2 \/ i = 3) by lia.
    destruct K as [-> | [-> | [-> | ->]]]; reflexivity.
Defined.

(** The fix of one reported definition leaves the verdict on the others
    as it was: a definition above the fixed one is checked as before, and
    a definition whose banner lines all lie below the fixed block is
    checked as before five lines further down. *)
Theorem fix_frame (document : TextDocument) (ds : list Diagnostic)
    (d : Diagnostic) (e : Z) :
  scan document = Some ds -> In d ds ->
  findEndOfFunction document (startLine (range d)) = Some e ->
  exists edits,
    fixDiagnostic document d = Some edits /\
    (forall t name, defAt document t -> t < startLine (range d) ->
       hasValidFormat (applyEdits document edits) t name
       = hasValidFormat document t name) /\
    (forall t name, defAt document t -> e < t - 3 ->
       hasValidFormat (applyEdits document edits) (t + 5) name
       = hasValidFormat document t name).
Proof.
  intros Sc H Fe.
  destruct (scan_diagnostic document ds d Sc H)
    as [i [s [text [name [_ [_ [_ [L [M [_ ->]]]]]]]]]].
  cbn [formatDiagnostic range startLine] in *.
  destruct (fixDiagnostic_of_def document s text name L M) as [e' [Fe' [Re Fx]]].
  assert (e' = e) by congruence. subst e'.
  destruct (matchDef_Some _ _ M) as [q [c [tl [_ [_ [W _]]]]]].
  pose proof (applyEdits_fix_lines document s e text name L W Re) as Sh.
  set (edits := [mkInsert s 0 (openingText name);
                 mkInsert (e + 1) 0 (closingText name)]) in *.
  pose proof (lineAt_Some_range _ _ _ L) as R.
  exists edits. split; [exact Fx|]. split.
  - intros t name' D Ht. symmetry. apply hasValidFormat_same_lines; [exact D|].
    intros j Hj. destruct (lineAt document j) as [x|] eqn:Lj.
    + symmetry. apply (lineAt_firstn document _ (Z.to_nat s) j x); [|lia | exact Lj].
      rewrite Sh, firstn_app, firstn_firstn, length_firstn.
      unfold lineCount in R.
      replace (Nat.min (Z.to_nat s) (Z.to_nat s)) with (Z.to_nat s) by lia.
      replace (Z.to_nat s - Nat.min (Z.to_nat s) (List.length (lines document)))%nat
        with O by lia.
      cbn [firstn]. rewrite app_nil_r. reflexivity.
    + destruct D as [x [Lt _]]. apply lineAt_Some_range in Lt.
      assert (j < 0).
      { destruct (Z_lt_le_dec j 0) as [Neg | Pos]; [exact Neg|].
        destruct (lineAt_in_range document j) as [y Ly]; [lia | congruence]. }
      symmetry. apply lineAt_negative; assumption.
  - intros t name' D Ht.
    set (pre := firstn (Z.to_nat s) (lines document)
                  ++ [topComment; functionComment name; topComment]
                  ++ skipn (Z.to_nat s) (firstn (Z.to_nat (e + 1)) (lines document))
                  ++ closingLines (e + 1 <? lineCount document) name).
    assert (Sh' : lines (applyEdits document edits)
                  = pre ++ skipn (Z.to_nat (e + 1)) (lines document)).
    { rewrite Sh. unfold pre. rewrite <- !app_assoc. reflexivity. }
    assert (Lp : Z.of_nat (List.length pre) - Z.of_nat (Z.to_nat (e + 1)) = 5).
    { unfold pre. rewrite !length_app, length_skipn, !length_firstn.
      assert (K : List.length (closingLines (e + 1 <? lineCount document) name) = 2%nat)
        by (unfold closingLines; destruct (e + 1 <? _); reflexivity).
      rewrite K. unfold lineCount in *. cbn [List.length]. lia. }
    apply hasValidFormat_shifted; [exact D | lia | lia|].
    intros j Hj. rewrite <- Lp.
    apply (lineAt_shifted document (applyEdits document edits) pre _ j Sh'). lia.
Qed.

Lemma fix_frame_witness :
  exists edits,
    fixDiagnostic doc_three (formatDiagnostic 5 (str "def b():") (str "b"))
      = Some edits /\
    (forall t name, defAt doc_three t -> t < 5 ->
       hasValidFormat (applyEdits doc_three edits) t name
       = hasValidFormat doc_three t name) /\
    (forall t name, defAt doc_three t -> 9 < t - 3 ->
       hasValidFormat (applyEdits doc_three edits) (t + 5) name
       = hasValidFormat doc_three t name).
Proof.
  apply (fix_frame doc_three
           [formatDiagnostic 5 (str "def b():") (str "b")]
           (formatDiagnostic 5 (str "def b():") (str "b")) 9).
  - reflexivity.
  - left. reflexivity.
  - reflexivity.
Defined.
